(** * ddw.py: the daily wallpaper fetcher, embedded in Rocq

    A shallow embedding of [src/ddw.py] (class [DeepinDailyWallpaper]) and
    the properties its specification states about it.

    Layout:
    - [PyStr]    : the Python string operations the program uses;
    - [UrlLib]   : [urllib.parse.urlparse] and [posixpath.basename]/[join];
    - [Registry] : [get_sources] (method discovery by naming convention);
    - [Fs]       : the file system the program touches (pathlib, open, find);
    - [Ddw]      : the class itself, as state passing over a [World].

    Strings are byte strings (UTF-8); every character the program inspects
    is ASCII, so searching and splitting act on bytes as they do on code
    points. *)

From Stdlib Require Import ZArith String Ascii List Bool Lia.
From stdpp Require Import base option list sorting gmap strings pretty.

Local Open Scope Z_scope.

(* ===================================================================== *)
(** ** Python string operations *)
(* ===================================================================== *)

Module PyStr.

(** [s.startswith(p)]. *)
Fixpoint startswith (p s : string) : bool :=
  match p, s with
  | EmptyString, _ => true
  | String a p', String b s' => Ascii.eqb a b && startswith p' s'
  | String _ _, EmptyString => false
  end.

(** [c in s] for a one-character needle. *)
Fixpoint has_char (c : ascii) (s : string) : bool :=
  match s with
  | EmptyString => false
  | String d r => if Ascii.eqb d c then true else has_char c r
  end.

(** [all(p(c) for c in s)]. *)
Fixpoint all_chars (p : ascii -> bool) (s : string) : bool :=
  match s with
  | EmptyString => true
  | String d r => p d && all_chars p r
  end.

(** [s.split(c, 1)] when [c in s]: the text before and after the first
    occurrence of [c]; [None] when [c] does not occur. *)
Fixpoint partition (c : ascii) (s : string) : option (string * string) :=
  match s with
  | EmptyString => None
  | String d r =>
      if Ascii.eqb d c then Some (EmptyString, r)
      else match partition c r with
           | Some (a, b) => Some (String d a, b)
           | None => None
           end
  end.

(** [(s[:i], s[i:])] for the least [i] with [p s[i]], or [(s, "")]. *)
Fixpoint break_at (p : ascii -> bool) (s : string) : string * string :=
  match s with
  | EmptyString => (EmptyString, EmptyString)
  | String d r =>
      if p d then (EmptyString, s)
      else let '(a, b) := break_at p r in (String d a, b)
  end.

(** [s.lstrip(chars)], the characters to strip given by a predicate. *)
Fixpoint lstrip (p : ascii -> bool) (s : string) : string :=
  match s with
  | EmptyString => EmptyString
  | String d r => if p d then lstrip p r else s
  end.

(** [s.rstrip(c)] for a single character [c]. *)
Fixpoint rstrip (c : ascii) (s : string) : string :=
  match s with
  | EmptyString => EmptyString
  | String d r =>
      match rstrip c r with
      | EmptyString => if Ascii.eqb d c then EmptyString else String d EmptyString
      | r' => String d r'
      end
  end.

(** Deleting every character that satisfies [p]: the composition of
    [s.replace(b, "")] over one-character strings [b]. *)
Fixpoint remove_chars (p : ascii -> bool) (s : string) : string :=
  match s with
  | EmptyString => EmptyString
  | String d r => if p d then remove_chars p r else String d (remove_chars p r)
  end.

(** [s.rfind(c)]: the index of the last occurrence of [c], or [-1]. *)
Fixpoint rfind (c : ascii) (s : string) : Z :=
  match s with
  | EmptyString => -1
  | String d r =>
      let j := rfind c r in
      if 0 <=? j then j + 1 else if Ascii.eqb d c then 0 else -1
  end.

Fixpoint take (n : nat) (s : string) : string :=
  match n, s with
  | S n', String d r => String d (take n' r)
  | _, _ => EmptyString
  end.

Fixpoint drop (n : nat) (s : string) : string :=
  match n, s with
  | S n', String _ r => drop n' r
  | _, _ => s
  end.

(** [s[0:j]]: a negative [j] counts from the end of the string. *)
Definition slice_to (s : string) (j : Z) : string :=
  if 0 <=? j then take (Z.to_nat j) s
  else take (Z.to_nat (Z.of_nat (String.length s) + j)) s.

(** [s.replace(old, new)] for a non-empty [old]: occurrences are replaced
    from the left and do not overlap.  [skip] counts the characters of an
    occurrence that are still to be passed over. *)
Fixpoint replace_go (old new : string) (skip : nat) (s : string) : string :=
  match s with
  | EmptyString => EmptyString
  | String d r =>
      match skip with
      | S k => replace_go old new k r
      | O =>
          if startswith old s
          then new +:+ replace_go old new (Nat.pred (String.length old)) r
          else String d (replace_go old new O r)
      end
  end.

Definition replace (old new s : string) : string := replace_go old new O s.


Definition endswith (suffix s : string) : bool :=
  String.eqb (drop (String.length s - String.length suffix) s) suffix.

Definition is_ascii (c : ascii) : bool := (nat_of_ascii c <? 128)%nat.

Definition is_lower (c : ascii) : bool :=
  let n := nat_of_ascii c in (97 <=? n)%nat && (n <=? 122)%nat.

Definition is_upper (c : ascii) : bool :=
  let n := nat_of_ascii c in (65 <=? n)%nat && (n <=? 90)%nat.

Definition is_digit (c : ascii) : bool :=
  let n := nat_of_ascii c in (48 <=? n)%nat && (n <=? 57)%nat.

(** [c.isascii() and c.isalpha()]. *)
Definition is_ascii_alpha (c : ascii) : bool := is_lower c || is_upper c.

(** [\w] of [re] on ASCII text. *)
Definition is_word (c : ascii) : bool :=
  is_ascii_alpha c || is_digit c || Ascii.eqb c "_".

Definition lower_char (c : ascii) : ascii :=
  if is_upper c then ascii_of_nat (nat_of_ascii c + 32) else c.

Fixpoint lower (s : string) : string :=
  match s with
  | EmptyString => EmptyString
  | String d r => String (lower_char d) (lower r)
  end.

(** The pieces of [r.iter_content(chunk_size=n)] for a body [s]; a body
    of [fuel] bytes has at most [fuel] pieces. *)
Fixpoint chunks (fuel n : nat) (s : string) : list string :=
  match fuel with
  | O => []
  | S fuel' =>
      match s with
      | EmptyString => []
      | String _ _ => take n s :: chunks fuel' n (drop n s)
      end
  end.

(** [b''.join(cs)]. *)
Definition joined (cs : list string) : string := foldr String.append "" cs.

(** [s.split(c)]: always at least one piece. *)
Fixpoint split (c : ascii) (s : string) : list string :=
  match s with
  | EmptyString => [EmptyString]
  | String d r =>
      if Ascii.eqb d c then EmptyString :: split c r
      else match split c r with
           | p :: ps => String d p :: ps
           | [] => [String d EmptyString]
           end
  end.

End PyStr.

(* ===================================================================== *)
(** ** Exceptions and results *)
(* ===================================================================== *)

(** The exceptions that can leave the program. *)
Inductive Exception : Type :=
| RuntimeError (msg : string)
| KeyError (key : string)
| TypeError (msg : string)
| ValueError (msg : string)
| AttributeError (name : string)
| FileExistsError
| FileNotFoundError
| NotADirectoryError
| IsADirectoryError
| RequestException (msg : string)
| DBusException (msg : string)
| IndexError (msg : string).

Inductive Result (A : Type) : Type :=
| Ok (a : A)
| Raise (e : Exception).
Arguments Ok {A} a.
Arguments Raise {A} e.

Definition is_ok {A} (r : Result A) : bool :=
  match r with Ok _ => true | Raise _ => false end.

(* ===================================================================== *)
(** ** urllib.parse and posixpath *)
(* ===================================================================== *)

(** [urlsplit] and [urlparse] as CPython 3.11 and 3.12 have them, for text
    input and the default arguments. *)
Module UrlLib.
Import PyStr.

(** [posixpath.basename(p)] is [p[p.rfind('/') + 1:]]. *)
Fixpoint basename (p : string) : string :=
  match p with
  | EmptyString => EmptyString
  | String d r =>
      if Ascii.eqb d "/" then basename r
      else if has_char "/" r then basename r
      else p
  end.

(** [p[:p.rfind('/') + 1]]: everything up to and including the last
    slash. *)
Fixpoint dirpart (p : string) : string :=
  match p with
  | EmptyString => EmptyString
  | String d r =>
      if has_char "/" r then String d (dirpart r)
      else if Ascii.eqb d "/" then "/"
      else EmptyString
  end.

(** [posixpath.join(a, b)]. *)
Definition join (a b : string) : string :=
  if startswith "/" b then b
  else if String.eqb a "" || endswith "/" a then a +:+ b
  else a +:+ "/" +:+ b.

Record SplitResult : Type := mkSplit {
  scheme : string;
  netloc : string;
  path : string;
  query : string;
  fragment : string
}.

(** Leading C0 control characters and spaces are stripped. *)
Definition is_c0_or_space (c : ascii) : bool := (nat_of_ascii c <=? 32)%nat.

(** Tab, carriage return and line feed are removed wherever they are. *)
Definition is_unsafe (c : ascii) : bool :=
  let n := nat_of_ascii c in
  Nat.eqb n 9 || Nat.eqb n 10 || Nat.eqb n 13.

Definition is_scheme_char (c : ascii) : bool :=
  is_ascii_alpha c || is_digit c
  || Ascii.eqb c "+" || Ascii.eqb c "-" || Ascii.eqb c ".".

Definition is_netloc_delim (c : ascii) : bool :=
  Ascii.eqb c "/" || Ascii.eqb c "?" || Ascii.eqb c "#".

Definition first_is (p : ascii -> bool) (s : string) : bool :=
  match s with
  | EmptyString => false
  | String d _ => p d
  end.

(** The scheme is split off when the text before the first colon is not
    empty, starts with an ASCII letter and holds scheme characters only. *)
Definition split_scheme (url : string) : string * string :=
  match partition ":" url with
  | Some (pre, post) =>
      if first_is is_ascii_alpha pre && all_chars is_scheme_char pre
      then (lower pre, post)
      else (EmptyString, url)
  | None => (EmptyString, url)
  end.

(** [_splitnetloc(url, 2)] after the test [url[:2] == '//']. *)
Definition split_netloc (url : string) : string * string :=
  if startswith "//" url then break_at is_netloc_delim (drop 2 url)
  else (EmptyString, url).

Definition split_once (c : ascii) (url : string) : string * string :=
  match partition c url with
  | Some (a, b) => (a, b)
  | None => (url, EmptyString)
  end.

(** The five components [urlsplit] computes, before it validates the
    network location. *)
Definition urlsplit_parts (url : string) : SplitResult :=
  let url := remove_chars is_unsafe (lstrip is_c0_or_space url) in
  let '(sch, url) := split_scheme url in
  let '(loc, url) := split_netloc url in
  let '(url, frag) := split_once "#" url in
  let '(url, qry) := split_once "?" url in
  mkSplit sch loc url qry frag.

Definition uses_params : list string :=
  [""; "ftp"; "hdl"; "prospero"; "http"; "imap"; "https"; "shttp"; "rtsp";
   "rtsps"; "rtspu"; "sip"; "sips"; "mms"; "sftp"; "tel"].

(** [_splitparams(url)[0]]: the path without the parameters of its last
    segment. *)
Definition strip_params (p : string) : string :=
  dirpart p +:+ fst (split_once ";" (basename p)).

(** [urlparse(url).path], validation apart. *)
Definition url_path (url : string) : string :=
  let r := urlsplit_parts url in
  if bool_decide (scheme r ∈ uses_params) && has_char ";" (path r)
  then strip_params (path r)
  else path r.

(** A network location of ASCII characters without brackets passes both
    of [urlsplit]'s checks. *)
Definition plain_netloc (loc : string) : bool :=
  all_chars is_ascii loc && negb (has_char "[" loc) && negb (has_char "]" loc).

(** A host of ordinary characters: none that [urlsplit] removes, none
    that ends the network location. *)
Definition host_char (c : ascii) : bool :=
  negb (is_unsafe c) && negb (is_netloc_delim c).

(** A text that [urlsplit] keeps whole in the path: no character is
    removed, and none starts the query, the fragment or the parameters. *)
Definition path_char (c : ascii) : bool :=
  negb (is_unsafe c) && negb (Ascii.eqb c "?") && negb (Ascii.eqb c "#")
  && negb (Ascii.eqb c ";").

(** The characters that start the query or the fragment. *)
Definition starts_tail (d : ascii) : bool := Ascii.eqb d "?" || Ascii.eqb d "#".

Section Validation.
(** What [_check_bracketed_netloc] and [_checknetloc] decide for a
    network location with a bracketed host or non-ASCII characters:
    they belong to the library, not to the program. *)
Variable netloc_accepted : string -> bool.

Definition netloc_ok (loc : string) : bool :=
  if plain_netloc loc then true
  else if xorb (has_char "[" loc) (has_char "]" loc) then false
  else netloc_accepted loc.

(** [urlparse(url).path], or the [ValueError] of [urlsplit]. *)
Definition urlparse_path (url : string) : Result string :=
  if netloc_ok (netloc (urlsplit_parts url)) then Ok (url_path url)
  else Raise (ValueError "Invalid URL").
End Validation.

End UrlLib.

(* ===================================================================== *)
(** ** The source registry *)
(* ===================================================================== *)

Module Registry.
Import PyStr.

(** The routines the class body defines, in source order. *)
Definition class_routines : list string :=
  ["__init__"; "run"; "clean_up"; "get_sources"; "_fetch_wallpaper";
   "_fetch_bing_wallpaper"; "_fetch_natgeo_wallpaper";
   "_fetch_wiki_wallpaper"; "_fetch_nasa_wallpaper";
   "_fetch_epod_wallpaper"; "_download_image"; "_set_wallpaper";
   "_dbus_set"; "_create_filename"; "_soupify"].

(** The routines every class inherits from [object]. *)
Definition object_routines : list string :=
  ["__delattr__"; "__dir__"; "__eq__"; "__format__"; "__ge__";
   "__getattribute__"; "__getstate__"; "__gt__"; "__hash__"; "__init__";
   "__init_subclass__"; "__le__"; "__lt__"; "__ne__"; "__new__";
   "__reduce__"; "__reduce_ex__"; "__repr__"; "__setattr__";
   "__sizeof__"; "__str__"; "__subclasshook__"].

(** Insertion into a list sorted by name, one entry per name. *)
Fixpoint insert_name (x : string) (l : list string) : list string :=
  match l with
  | [] => [x]
  | y :: l' =>
      match String.compare x y with
      | Lt => x :: l
      | Eq => l
      | Gt => y :: insert_name x l'
      end
  end.

(** The names of [inspect.getmembers(cls, predicate=inspect.isroutine)]:
    every routine once, sorted by name. *)
Definition getmembers : list string :=
  foldr insert_name [] (class_routines ++ object_routines).

Definition strip_prefix (p s : string) : option string :=
  if startswith p s then Some (drop (String.length p) s) else None.

Definition strip_suffix (p s : string) : option string :=
  if endswith p s then Some (take (String.length s - String.length p) s)
  else None.

(** The group [\1] of [^_fetch_(\w+)_wallpaper$] on a name it matches:
    the suffix is anchored at the end, so the group is all that lies
    between the prefix and the last [_wallpaper]. *)
Definition pattern_group (name : string) : option string :=
  match strip_prefix "_fetch_" name with
  | Some rest =>
      match strip_suffix "_wallpaper" rest with
      | Some g =>
          if negb (String.eqb g "") && all_chars is_word g then Some g
          else None
      | None => None
      end
  | None => None
  end.

(** [get_sources()]: on a name the pattern matches whole,
    [pattern.sub(r'\1', name)] is the group. *)
Definition get_sources : list string := omap pattern_group getmembers.

(** ['_fetch_%s_wallpaper' % source], the name under which
    [_fetch_wallpaper] looks up the adapter of a source. *)
Definition method_name (source : string) : string :=
  "_fetch_" +:+ source +:+ "_wallpaper".

(** The [choices] of the [--source] option. *)
Definition source_choices : list string := get_sources ++ ["any"].

(** The [choices] of the [--change] option. *)
Definition change_choices : list string := ["wallpaper"; "greeter"; "all"].

End Registry.

(* ===================================================================== *)
(** ** The file system *)
(* ===================================================================== *)

Module Fs.
Import PyStr.

(** A node is a regular file or a directory; both carry the time of
    their last modification, in seconds. *)
Inductive Node : Type :=
| File (content : string) (mtime : Z)
| Dir (mtime : Z).

Definition mtime_of (n : Node) : Z :=
  match n with File _ m => m | Dir m => m end.

Definition is_file (n : Node) : bool :=
  match n with File _ _ => true | Dir _ => false end.

(** A file system maps the absolute location of a node, the list of
    names from the root, to the node.  The root is the empty list. *)
Abbreviation FS := (gmap (list string) Node).

Definition parent (k : list string) : list string := removelast k.

Definition is_dir (fs : FS) (k : list string) : bool :=
  match fs !! k with Some (Dir _) => true | _ => false end.

(** Every node but the root lies in a directory, and the root is one. *)
Definition wf_fs (fs : FS) : Prop :=
  is_dir fs [] = true ∧
  ∀ k n, fs !! k = Some n → is_dir fs (parent k) = true.

(** One step of path resolution from the directory [cur]. *)
Definition step (cur : list string) (c : string) : list string :=
  if String.eqb c "" || String.eqb c "." then cur
  else if String.eqb c ".." then parent cur
  else cur ++ [c].

(** Path resolution: each component is looked up in a directory that
    exists; the last one may name a node that does not exist yet. *)
Fixpoint walk (fs : FS) (cur : list string) (comps : list string)
  : Result (list string) :=
  match comps with
  | [] => Ok cur
  | c :: rest =>
      match fs !! cur with
      | Some (Dir _) => walk fs (step cur c) rest
      | Some (File _ _) => Raise NotADirectoryError
      | None => Raise FileNotFoundError
      end
  end.

Definition origin (cwd : list string) (absolute : bool) : list string :=
  if absolute then [] else cwd.

(** Resolution of a path string by the operating system. *)
Definition resolve (fs : FS) (cwd : list string) (p : string)
  : Result (list string) :=
  if String.eqb p "" then Raise FileNotFoundError
  else walk fs (origin cwd (startswith "/" p)) (split "/" p).

(** [pathlib.Path(p)]: empty and [.] components are dropped, [..] stays. *)
Record PurePath : Type := mkPath {
  anchored : bool;
  parts : list string
}.

Definition proper_part (c : string) : bool :=
  negb (String.eqb c "" || String.eqb c ".").

Definition Path (p : string) : PurePath :=
  mkPath (startswith "/" p) (List.filter proper_part (split "/" p)).

Definition path_resolve (fs : FS) (cwd : list string) (P : PurePath)
  : Result (list string) :=
  walk fs (origin cwd (anchored P)) (parts P).

(** [Path.exists()]: [os.stat] succeeds. *)
Definition path_exists (fs : FS) (cwd : list string) (P : PurePath) : bool :=
  match path_resolve fs cwd P with
  | Ok k => bool_decide (is_Some (fs !! k))
  | Raise _ => false
  end.

(** [Path.is_dir()]. *)
Definition path_is_dir (fs : FS) (cwd : list string) (P : PurePath) : bool :=
  match path_resolve fs cwd P with
  | Ok k => is_dir fs k
  | Raise _ => false
  end.

(** Creating or removing an entry of a directory sets the directory's
    modification time. *)
Definition touch (now : Z) (k : list string) (fs : FS) : FS :=
  alter (λ n, match n with Dir _ => Dir now | File _ _ => n end) k fs.

(** A new node at [k], in the directory that holds it. *)
Definition create (now : Z) (k : list string) (n : Node) (fs : FS)
  : Result unit * FS :=
  match k with
  | [] => (Raise FileNotFoundError, fs)
  | _ :: _ =>
      if is_dir fs (parent k)
      then (Ok (), touch now (parent k) (<[k := n]> fs))
      else (Raise FileNotFoundError, fs)
  end.

(** [os.mkdir(P)]. *)
Definition os_mkdir (cwd : list string) (now : Z) (P : PurePath) (fs : FS)
  : Result unit * FS :=
  match path_resolve fs cwd P with
  | Raise e => (Raise e, fs)
  | Ok k =>
      match fs !! k with
      | Some _ => (Raise FileExistsError, fs)
      | None => create now k (Dir now) fs
      end
  end.

(** [Path.mkdir(parents=True, exist_ok=True)], by recursion on the
    reversed list of components: the parent of a path drops the last. *)
Fixpoint mkdir_parents (cwd : list string) (now : Z) (anch : bool)
    (rparts : list string) (fs : FS) : Result unit * FS :=
  let P := mkPath anch (rev rparts) in
  match os_mkdir cwd now P fs with
  | (Ok _, fs') => (Ok (), fs')
  | (Raise FileNotFoundError, _) =>
      match rparts with
      | [] => (Raise FileNotFoundError, fs)
      | _ :: rparent =>
          match mkdir_parents cwd now anch rparent fs with
          | (Raise e, fs1) => (Raise e, fs1)
          | (Ok _, fs1) =>
              match os_mkdir cwd now P fs1 with
              | (Ok _, fs2) => (Ok (), fs2)
              | (Raise FileNotFoundError, _) => (Raise FileNotFoundError, fs1)
              | (Raise e, _) =>
                  if path_is_dir fs1 cwd P then (Ok (), fs1) else (Raise e, fs1)
              end
          end
      end
  | (Raise e, _) =>
      if path_is_dir fs cwd P then (Ok (), fs) else (Raise e, fs)
  end.

Definition mkdir_p (cwd : list string) (now : Z) (P : PurePath) (fs : FS)
  : Result unit * FS :=
  mkdir_parents cwd now (anchored P) (rev (parts P)) fs.

(** [open(p, 'wb')]: the file is created, or truncated when it exists. *)
Definition open_wb (cwd : list string) (now : Z) (p : string) (fs : FS)
  : Result (list string) * FS :=
  match resolve fs cwd p with
  | Raise e => (Raise e, fs)
  | Ok k =>
      match fs !! k with
      | Some (Dir _) => (Raise IsADirectoryError, fs)
      | Some (File _ _) => (Ok k, <[k := File "" now]> fs)
      | None =>
          match create now k (File "" now) fs with
          | (Ok _, fs') => (Ok k, fs')
          | (Raise e, fs') => (Raise e, fs')
          end
      end
  end.

(** [fd.write(chunk)] on the open file at [k]. *)
Definition fd_write (now : Z) (k : list string) (chunk : string) (fs : FS) : FS :=
  alter (λ n, match n with
              | File c _ => File (c +:+ chunk) now
              | Dir _ => n
              end) k fs.

(** A component that names an entry: not empty, not [.] and not [..]. *)
Definition plain_part (c : string) : bool :=
  proper_part c && negb (String.eqb c "..").

(** No regular file lies at [o] or on the way from [o] down [ps]. *)
Definition no_file_on (fs : FS) (o ps : list string) : Prop :=
  ∀ q, q `prefix_of` ps → ∀ c m, fs !! (o ++ q) ≠ Some (File c m).

(** [fs'] has a directory at [k]; it keeps every directory of [fs] and
    has the regular files of [fs] and no others. *)
Definition made (fs fs' : FS) (k : list string) : Prop :=
  is_dir fs' k = true
  ∧ (∀ j, is_dir fs j = true → is_dir fs' j = true)
  ∧ (∀ j c m, fs' !! j = Some (File c m) ↔ fs !! j = Some (File c m)).

(** [fs'] has the regular files of [fs] and no others, and every
    directory of [fs]. *)
Definition extends (fs fs' : FS) : Prop :=
  (∀ j c m, fs' !! j = Some (File c m) ↔ fs !! j = Some (File c m))
  ∧ (∀ j, is_dir fs j = true → is_dir fs' j = true).

(** Well-formedness and the absence of files on a way, as tests that
    run. *)
Definition wf_fsb (fs : FS) : bool :=
  is_dir fs [] && forallb (λ kn, is_dir fs (parent kn.1)) (map_to_list fs).

Definition file_at (fs : FS) (k : list string) : bool :=
  match fs !! k with Some (File _ _) => true | _ => false end.

Fixpoint no_file_onb (fs : FS) (o ps : list string) : bool :=
  negb (file_at fs o) &&
  match ps with
  | [] => true
  | c :: ps' => no_file_onb fs (o ++ [c]) ps'
  end.

(** *** [find START -mtime +N -delete] *)

(** The age of a node in whole days: the remainder is discarded. *)
Definition age_days (now : Z) (n : Node) : Z := (now - mtime_of n) / 86400.

(** [-mtime +N]: the age in whole days is greater than [N]. *)
Definition mtime_plus (now N : Z) (n : Node) : bool := N <? age_days now n.

Definition below (start k : list string) : bool :=
  bool_decide (start `prefix_of` k).

(** [unlink] or [rmdir] of the entry at [k]. *)
Definition remove_entry (now : Z) (k : list string) (fs : FS) : FS :=
  touch now (parent k) (delete k fs).

(** A directory can be removed when nothing lies below it. *)
Definition has_entries (fs : FS) (k : list string) : bool :=
  bool_decide (map_Exists (λ k' _, k ≠ k' ∧ k `prefix_of` k') fs).

(** [rmdir] fails on a directory that is not empty, and on the root. *)
Definition rmdir_if_empty (now : Z) (fs : FS) (k : list string) : FS :=
  match k with
  | [] => fs
  | _ :: _ => if has_entries fs k then fs else remove_entry now k fs
  end.

(** The entries below [start] that the test selects, files and
    directories apart.  [find] reads the time of a directory when it
    enters it, before any entry in it is removed. *)
Definition selected (now N : Z) (start : list string) (want_file : bool)
    (fs : FS) : list (list string) :=
  (map_to_list
     (filter (λ kn, below start kn.1 && mtime_plus now N kn.2
                    && Bool.eqb (is_file kn.2) want_file = true) fs)).*1.

Definition deeper (k1 k2 : list string) : Prop :=
  (length k2 ≤ length k1)%nat.

#[local] Instance deeper_dec k1 k2 : Decision (deeper k1 k2).
Proof. unfold deeper. apply _. Defined.

(** [-delete] implies [-depth]: what lies in a directory is processed
    before the directory itself. *)
Definition find_mtime_delete (cwd : list string) (now : Z) (start : string)
    (N : Z) (fs : FS) : FS :=
  match resolve fs cwd start with
  | Raise _ => fs
  | Ok s =>
      let files := selected now N s true fs in
      let dirs := merge_sort deeper (selected now N s false fs) in
      foldl (rmdir_if_empty now) (foldr (remove_entry now) fs files) dirs
  end.

End Fs.


(* ===================================================================== *)
(** ** The program *)
(* ===================================================================== *)

Module Ddw.
Import PyStr UrlLib Registry Fs.

(** An HTTP response, as far as the program reads it. *)
Record Response : Type := mkResponse {
  status_code : Z;
  content : string
}.

(** An element of a parsed document: its text and its attributes. *)
Record Tag : Type := mkTag {
  text : string;
  attrs : list (string * string)
}.

(** One [Set(key, value, dbus_interface=...)] call on the bus object. *)
Record BusCall : Type := mkCall {
  call_key : string;
  call_value : string;
  call_interface : string
}.

(** What the program can observe and change: the file system, the
    working directory, the time, the requests it has sent and the calls
    it has made on the session bus.  The clock stands still while the
    program runs: a run is short against the days that [find] counts. *)
Record World : Type := mkWorld {
  fs : FS;
  cwd : list string;
  clock : Z;
  entropy : nat;
  requests_log : list string;
  bus_log : list BusCall
}.

Definition set_fs (f : FS) (w : World) : World :=
  mkWorld f (cwd w) (clock w) (entropy w) (requests_log w) (bus_log w).

(** The world after one request for [uri]. *)
Definition requested (uri : string) (w : World) : World :=
  mkWorld (fs w) (cwd w) (clock w) (entropy w) (requests_log w ++ [uri])
          (bus_log w).

(** The world after one call on the bus. *)
Definition called (c : BusCall) (w : World) : World :=
  mkWorld (fs w) (cwd w) (clock w) (entropy w) (requests_log w)
          (bus_log w ++ [c]).

(** The attributes of the instance ([self._bus] is the bus of the world). *)
Record Self : Type := mkSelf {
  _source : string;
  _change : string;
  _clean : Z;
  _storage_path : string
}.

(** Computations of the program: a result or an exception, and the world
    as it is left. *)
Definition M (A : Type) : Type := World → Result A * World.

Definition ret {A} (a : A) : M A := λ w, (Ok a, w).

Definition raise {A} (e : Exception) : M A := λ w, (Raise e, w).

Definition bind {A B} (m : M A) (k : A → M B) : M B :=
  λ w, match m w with
       | (Ok a, w') => k a w'
       | (Raise e, w') => (Raise e, w')
       end.

Definition lift {A} (r : Result A) : M A := λ w, (r, w).

Notation "'let*' x := e 'in' k" := (bind e (λ x, k))
  (at level 10, x name, e at level 100, k at level 200).
Notation "e1 ;;; e2" := (bind e1 (λ _, e2))
  (at level 100, e2 at level 200, right associativity).

(** A computation that leaves a well-formed file system well-formed,
    whatever its result. *)
Definition keeps_wf {A} (m : M A) : Prop :=
  ∀ w r w', m w = (r, w') → wf_fs (fs w) → wf_fs (fs w').

(** Running a file-system operation in the world. *)
Definition on_fs {A} (op : list string → Z → FS → Result A * FS) : M A :=
  λ w, let '(r, f) := op (cwd w) (clock w) (fs w) in (r, set_fs f w).

(** [tag[key]]. *)
Definition getitem (t : Tag) (key : string) : Result string :=
  match List.find (λ kv, String.eqb (fst kv) key) (attrs t) with
  | Some kv => Ok (snd kv)
  | None => Raise (KeyError key)
  end.

Definition dquote : string := String "034" EmptyString.

(** The start of the search in ['find {} -mtime +{} -delete']: the shell
    passes a storage path without blanks and special characters as one
    word; an empty path is no word at all, and [find] then starts at the
    working directory. *)
Definition find_start (storage_path : string) : string :=
  if String.eqb storage_path "" then "." else storage_path.

Section Program.

(** The collaborators the program consumes. *)

(** The parsed document and the two queries the adapters make on it. *)
Variable Soup : Type.
Variable BeautifulSoup : string → Soup.
Variable select_one : Soup → string → option Tag.
Variable soup_find : Soup → string → string * string → option Tag.

(** [requests.get], for the [n]-th request of the run: a response, or the
    exception of a transfer that failed. *)
Variable http : nat → string → Result Response.

(** The reply of the appearance service to a [Set] call, given the calls
    made before: [None] when the call returns. *)
Variable bus_reply : list BusCall → BusCall → option Exception.

(** The library's verdict on unusual network locations. *)
Variable netloc_accepted : string → bool.

Definition requests_get (uri : string) : M Response :=
  λ w, (http (length (requests_log w)) uri, requested uri w).

(** [__init__]: the attributes are stored and the storage directory is
    made, with its parents. *)
Definition __init__ (source change : string) (clean : Z)
    (storage_path : string) : M Self :=
  on_fs (λ cwd now f, mkdir_p cwd now (Path storage_path) f) ;;;
  ret (mkSelf source change clean storage_path).

(** [clean_up]: [system] runs the command and its exit status is dropped. *)
Definition clean_up (self : Self) : M unit :=
  if _clean self <=? 0 then ret ()
  else on_fs (λ cwd now f,
                (Ok (), find_mtime_delete cwd now (find_start (_storage_path self))
                          (_clean self) f)).

Definition _create_filename (uri : string) : M string :=
  let* p := lift (urlparse_path netloc_accepted uri) in
  ret (basename p).

Definition _soupify (uri : string) : M Soup :=
  let* r := requests_get uri in
  if negb (status_code r =? 200)
  then raise (RuntimeError (pretty (status_code r) +:+ " error fetching IoD"))
  else ret (BeautifulSoup (content r)).

(** The document that a fetch of [page] yields in the world [w]: the
    request is answered with status 200 and [doc] is the parsed body. *)
Definition fetched (page : string) (w : World) (doc : Soup) : Prop :=
  ∃ r, http (length (requests_log w)) page = Ok r
       ∧ status_code r = 200 ∧ doc = BeautifulSoup (content r).

Fixpoint write_chunks (k : list string) (cs : list string) : M unit :=
  match cs with
  | [] => ret ()
  | c :: cs' =>
      on_fs (λ _ now f, (Ok (), fd_write now k c f)) ;;;
      write_chunks k cs'
  end.

Definition _download_image (self : Self) (uri name : string) : M string :=
  let output_file := join (_storage_path self) name in
  let* present := on_fs (λ cwd _ f, (Ok (path_exists f cwd (Path output_file)), f)) in
  if (present : bool) then ret output_file
  else
    let* r := requests_get uri in
    if negb (status_code r =? 200)
    then raise (RuntimeError
                  (pretty (status_code r) +:+ " error downloading image"))
    else
      let* fd := on_fs (λ cwd now f, open_wb cwd now output_file f) in
      write_chunks fd (chunks (String.length (content r)) 128 (content r)) ;;;
      ret output_file.

(** A computation that, whenever it returns, has been one call of the
    download step, and the same call in every world. *)
Definition one_download (self : Self) (m : M string) : Prop :=
  ∀ w p w1, m w = (Ok p, w1) →
    ∃ uri name, ∀ w', m w' = _download_image self uri name w'.

Definition image_not_found {A} : M A := raise (RuntimeError "Image not found").

Definition bing_page : string :=
  "https://www.bing.com/HPImageArchive.aspx?format=xml&idx=0&n=1&mkt=en-US".

Definition _fetch_bing_wallpaper (self : Self) : M string :=
  let* soup := _soupify bing_page in
  match select_one soup "urlBase" with
  | None => image_not_found
  | Some image =>
      let uri := "https://www.bing.com/" +:+ text image +:+ "_1920x1080.jpg" in
      let file_name := "https://www.bing.com/" +:+ text image +:+ ".jpg" in
      let* name := _create_filename file_name in
      _download_image self uri name
  end.

Definition natgeo_page : string :=
  "http://www.nationalgeographic.com/photography/photo-of-the-day/".

Definition _fetch_natgeo_wallpaper (self : Self) : M string :=
  let* soup := _soupify natgeo_page in
  match soup_find soup "meta" ("property", "og:image") with
  | None => image_not_found
  | Some image =>
      let* uri := lift (getitem image "content") in
      let* href :=
        match soup_find soup "link" ("rel", "canonical") with
        | None => raise (TypeError "'NoneType' object is not subscriptable")
        | Some link => lift (getitem link "href")
        end in
      let* p := lift (urlparse_path netloc_accepted href) in
      let file_name := rstrip "/" p +:+ ".jpg" in
      let* name := _create_filename file_name in
      _download_image self uri name
  end.

Definition wiki_page : string := "https://commons.wikimedia.org/wiki/Main_Page".

Definition _fetch_wiki_wallpaper (self : Self) : M string :=
  let* soup := _soupify wiki_page in
  match select_one soup "#mainpage-potd div a img" with
  | None => image_not_found
  | Some image =>
      let* src := lift (getitem image "src") in
      let uri := replace "thumb/" "" src in
      let uri := slice_to uri (rfind "/" uri) in
      let* name := _create_filename uri in
      _download_image self uri name
  end.

Definition nasa_page : string := "https://apod.nasa.gov/apod/".

Definition nasa_selector : string :=
  "a[href^=" +:+ dquote +:+ "image/" +:+ dquote +:+ "]".

Definition _fetch_nasa_wallpaper (self : Self) : M string :=
  let* soup := _soupify nasa_page in
  match select_one soup nasa_selector with
  | None => image_not_found
  | Some image =>
      let* href := lift (getitem image "href") in
      let uri := "https://apod.nasa.gov/apod/" +:+ href in
      let* name := _create_filename uri in
      _download_image self uri name
  end.

Definition epod_page : string := "https://epod.usra.edu/blog/".

Definition _fetch_epod_wallpaper (self : Self) : M string :=
  let* soup := _soupify epod_page in
  match select_one soup "a.asset-img-link" with
  | None => image_not_found
  | Some image =>
      let* uri := lift (getitem image "href") in
      let* file_name := _create_filename (uri +:+ ".jpg") in
      _download_image self uri file_name
  end.

(** The methods that the pattern of [get_sources] matches, each with the
    source it stands for. *)
Definition adapters (self : Self) : list (string * M string) :=
  [("bing", _fetch_bing_wallpaper self);
   ("natgeo", _fetch_natgeo_wallpaper self);
   ("wiki", _fetch_wiki_wallpaper self);
   ("nasa", _fetch_nasa_wallpaper self);
   ("epod", _fetch_epod_wallpaper self)].

(** [random.choice(seq)]. *)
Definition random_choice (seq : list string) : M string :=
  λ w, match seq !! (entropy w mod length seq)%nat with
       | Some x => (Ok x, w)
       | None => (Raise (IndexError "Cannot choose from an empty sequence"), w)
       end.

(** [getattr(self, '_fetch_%s_wallpaper' % source)()]. *)
Definition fetch_method (self : Self) (source : string) : M string :=
  if String.eqb source "bing" then _fetch_bing_wallpaper self
  else if String.eqb source "natgeo" then _fetch_natgeo_wallpaper self
  else if String.eqb source "wiki" then _fetch_wiki_wallpaper self
  else if String.eqb source "nasa" then _fetch_nasa_wallpaper self
  else if String.eqb source "epod" then _fetch_epod_wallpaper self
  else raise (AttributeError ("_fetch_" +:+ source +:+ "_wallpaper")).

Definition _fetch_wallpaper (self : Self) : M string :=
  let* source :=
    if String.eqb (_source self) "any" then random_choice get_sources
    else ret (_source self) in
  fetch_method self source.

Definition appearance : string := "com.deepin.daemon.Appearance".

Definition _dbus_set (which path : string) : M unit :=
  λ w, let c := mkCall which path appearance in
       match bus_reply (bus_log w) c with
       | None => (Ok (), called c w)
       | Some e => (Raise e, called c w)
       end.

Definition _set_wallpaper (self : Self) (path : string) : M unit :=
  (if String.eqb (_change self) "wallpaper" || String.eqb (_change self) "all"
   then _dbus_set "background" path else ret ()) ;;;
  (if String.eqb (_change self) "greeter" || String.eqb (_change self) "all"
   then _dbus_set "greeterbackground" path else ret ()).

Definition run (self : Self) : M unit :=
  let* path := _fetch_wallpaper self in
  _set_wallpaper self path.

(** The main block once the command line is read and the proxy of the
    appearance service is at hand: the instance is made, then [run] and
    [clean_up] are called on it; an exception ends the program where it
    is raised. *)
Definition session (source change : string) (clean : Z)
    (storage_path : string) : M unit :=
  let* ddw := __init__ source change clean storage_path in
  run ddw ;;;
  clean_up ddw.

End Program.

(** The local path of an image, and whether the download step finds it
    there. *)
Definition output_path (self : Self) (name : string) : string :=
  join (_storage_path self) name.

Definition cached (self : Self) (name : string) (w : World) : bool :=
  path_exists (fs w) (cwd w) (Path (output_path self name)).

(** The world with a new file at [k], as the download step leaves it. *)
Definition stored (k : list string) (data : string) (w : World) : World :=
  set_fs (touch (clock w) (parent k) (<[k := File data (clock w)]> (fs w))) w.

(** The outcome of an adapter that found no image on its page: the
    error, and the world after the request for the page. *)
Definition not_found (page : string) (w : World) : Result string * World :=
  (Raise (RuntimeError "Image not found"), requested page w).

(** The page that the adapter of each source fetches. *)
Definition source_pages : list (string * string) :=
  [("bing", bing_page); ("natgeo", natgeo_page); ("wiki", wiki_page);
   ("nasa", nasa_page); ("epod", epod_page)].

(** Two ways to speak about what a computation does to the world: a
    relation between the world before and the world after that holds for
    every outcome, and a property of the value and the world of a run that
    returns. *)
Definition preserves {A} (R : relation World) (m : M A) : Prop :=
  ∀ w r w', m w = (r, w') → R w w'.

Definition returns {A} (Q : A → World → Prop) (m : M A) : Prop :=
  ∀ w a w', m w = (Ok a, w') → Q a w'.

(** Every regular file is where it was, with its content and its time;
    every directory is still a directory; the working directory and the
    clock are the same. *)
Definition nothing_lost (w w' : World) : Prop :=
  (∀ k c m, fs w !! k = Some (File c m) → fs w' !! k = Some (File c m))
  ∧ (∀ k, is_dir (fs w) k = true → is_dir (fs w') k = true)
  ∧ cwd w' = cwd w ∧ clock w' = clock w.

(** No call was made on the bus. *)
Definition bus_quiet (w w' : World) : Prop := bus_log w' = bus_log w.

(** Only the bus has been used: no request, no change of the files. *)
Definition only_bus (w w' : World) : Prop :=
  fs w' = fs w ∧ cwd w' = cwd w ∧ clock w' = clock w
  ∧ requests_log w' = requests_log w.

(** At most one request has been sent. *)
Definition one_request_at_most (w w' : World) : Prop :=
  requests_log w' = requests_log w
  ∨ ∃ uri, requests_log w' = requests_log w ++ [uri].

Arguments fetched {Soup} BeautifulSoup http page w doc.
Arguments _soupify {Soup} BeautifulSoup http uri w.
Arguments _fetch_bing_wallpaper {Soup} BeautifulSoup select_one http netloc_accepted self w.
Arguments _fetch_natgeo_wallpaper {Soup} BeautifulSoup soup_find http netloc_accepted self w.
Arguments _fetch_wiki_wallpaper {Soup} BeautifulSoup select_one http netloc_accepted self w.
Arguments _fetch_nasa_wallpaper {Soup} BeautifulSoup select_one http netloc_accepted self w.
Arguments _fetch_epod_wallpaper {Soup} BeautifulSoup select_one http netloc_accepted self w.
Arguments adapters {Soup} BeautifulSoup select_one soup_find http netloc_accepted self.
Arguments fetch_method {Soup} BeautifulSoup select_one soup_find http netloc_accepted self source w.
Arguments _fetch_wallpaper {Soup} BeautifulSoup select_one soup_find http netloc_accepted self w.
Arguments run {Soup} BeautifulSoup select_one soup_find http bus_reply netloc_accepted self w.
Arguments session {Soup} BeautifulSoup select_one soup_find http bus_reply netloc_accepted
  source change clean storage_path w.

End Ddw.

(* ===================================================================== *)
(** ** A small concrete world *)
(* ===================================================================== *)

(** One user, one storage directory with two cached images, and a network
    that serves a page for bing and for epod; used to run the program on
    concrete inputs. *)
Module Sample.
Import PyStr UrlLib Registry Fs Ddw.

Definition day : Z := 86400.

Definition storage : list string := ["home"; "u"; "wallpapers"].

(** The clock reads 11 days; [old.jpg] is 11 days old and [recent.jpg]
    seven days and a half. *)
Definition files : FS :=
  <[storage ++ ["recent.jpg"] := File "recent" (3 * day + day / 2)]>
  (<[storage ++ ["old.jpg"] := File "old" 0]>
  (<[storage := Dir (10 * day)]>
  (<[["home"; "u"] := Dir 0]>
  (<[["home"] := Dir 0]>
  {[ [] := Dir 0 ]})))).

Definition world : World := mkWorld files [] (11 * day) 0 [] [].

Definition self : Self := mkSelf "bing" "all" 7 "/home/u/wallpapers".

(** A parsed document, by the answers it gives to the queries. *)
Definition Doc : Type := list (string * Tag).

Definition lookup_tag (d : Doc) (q : string) : option Tag :=
  snd <$> List.find (λ e, String.eqb (fst e) q) d.

Definition parse (body : string) : Doc :=
  if String.eqb body "bing-xml"
  then [("urlBase", mkTag "/az/hprichbg/rb/Dunes_EN-US123" [])]
  else if String.eqb body "epod-html"
  then [("a.asset-img-link", mkTag "" [("class", "asset-img-link")])]
  else if String.eqb body "natgeo-html"
  then [("meta[property=og:image]",
         mkTag "" [("property", "og:image");
                   ("content", "https://i.natgeofe.com/n/abc/dunes.jpg")])]
  else [].

Definition select (d : Doc) (q : string) : option Tag := lookup_tag d q.

Definition find_tag (d : Doc) (name : string) (attr : string * string)
  : option Tag :=
  lookup_tag d (name +:+ "[" +:+ fst attr +:+ "=" +:+ snd attr +:+ "]").

Definition server (n : nat) (uri : string) : Result Response :=
  if String.eqb uri bing_page then Ok (mkResponse 200 "bing-xml")
  else if String.eqb uri epod_page then Ok (mkResponse 200 "epod-html")
  else if String.eqb uri natgeo_page then Ok (mkResponse 200 "natgeo-html")
  else if String.eqb uri wiki_page then Ok (mkResponse 200 "wiki-html")
  else if startswith "https://www.bing.com/" uri
  then Ok (mkResponse 200 "JFIF")
  else Ok (mkResponse 404 "").

Definition bus_accepts (before : list BusCall) (c : BusCall)
  : option Exception := None.

Definition accept_none (loc : string) : bool := false.

(** The same world nine days later, when nothing has been touched. *)
Definition later : World := mkWorld files [] (20 * day) 0 [] [].


(** Two more users: one who asks for the page of wiki, and one who asks
    for a source that does not exist. *)
Definition wiki_user : Self := mkSelf "wiki" "all" 7 "/home/u/wallpapers".

Definition flickr_user : Self := mkSelf "flickr" "all" 7 "/home/u/wallpapers".

(** A network that answers every request with a page. *)
Definition serves_all (n : nat) (uri : string) : Result Response :=
  Ok (mkResponse 200 "page").

(** A query that finds the same element in every document. *)
Definition always (t : Tag) (d : Doc) (q : string) : option Tag := Some t.


Definition nasa_image : Tag := mkTag "" [("href", "image/2401/dunes.jpg")].

Definition epod_image : Tag :=
  mkTag "" [("class", "asset-img-link");
            ("href", "https://epod.usra.edu/images/dunes")].




End Sample.

(* ===================================================================== *)
(** ** Properties of the string operations *)
(* ===================================================================== *)

Module PyStrFacts.
Import PyStr.

Lemma sapp_nil_l (s : string) : "" +:+ s = s.
Proof. reflexivity. Qed.

Lemma sapp_cons (c : ascii) (s t : string) : String c s +:+ t = String c (s +:+ t).
Proof. reflexivity. Qed.

(** Concatenation is kept folded; [str_simpl] pushes it inwards. *)
Ltac str_simpl := simpl; rewrite ?sapp_cons, ?sapp_nil_l; simpl.

Lemma sapp_empty_r (s : string) : s +:+ "" = s.
Proof. induction s as [|c s IH]; str_simpl; [reflexivity | by rewrite IH]. Qed.

Lemma sapp_assoc (a b c : string) : (a +:+ b) +:+ c = a +:+ (b +:+ c).
Proof. induction a as [|x a IH]; str_simpl; [reflexivity | by rewrite IH]. Qed.

Lemma has_char_app c a b : has_char c (a +:+ b) = has_char c a || has_char c b.
Proof.
  induction a as [|x a IH]; str_simpl; [reflexivity|].
  destruct (Ascii.eqb x c); [reflexivity | exact IH].
Qed.

Lemma all_chars_app p a b : all_chars p (a +:+ b) = all_chars p a && all_chars p b.
Proof.
  induction a as [|x a IH]; str_simpl; [reflexivity|].
  rewrite IH. by rewrite andb_assoc.
Qed.

(** What [partition] finds: the first occurrence. *)
Lemma partition_Some c s a b :
  partition c s = Some (a, b) → s = a +:+ String c b ∧ has_char c a = false.
Proof.
  revert a b. induction s as [|x s IH]; intros a b; str_simpl; [discriminate|].
  destruct (Ascii.eqb_spec x c) as [->|Hne].
  - intros [= <- <-]. split; reflexivity.
  - destruct (partition c s) as [[a' b']|]; [|discriminate].
    intros [= <- <-]. destruct (IH a' b' eq_refl) as [-> Ha].
    split; [reflexivity|]. str_simpl.
    destruct (Ascii.eqb_spec x c); [contradiction | exact Ha].
Qed.

Lemma partition_None c s : partition c s = None ↔ has_char c s = false.
Proof.
  induction s as [|x s IH]; str_simpl; [tauto|].
  destruct (Ascii.eqb x c); [split; discriminate|].
  destruct (partition c s) as [[a b]|].
  - split; [discriminate|]. intros H. apply IH in H. discriminate.
  - split; [intros _; by apply IH | reflexivity].
Qed.

(** Searching in a concatenation. *)
Lemma partition_app c a s :
  partition c (a +:+ s) =
  match partition c a with
  | Some (x, y) => Some (x, y +:+ s)
  | None =>
      match partition c s with
      | Some (x, y) => Some (a +:+ x, y)
      | None => None
      end
  end.
Proof.
  induction a as [|x a IH]; str_simpl.
  - destruct (partition c s) as [[? ?]|]; reflexivity.
  - destruct (Ascii.eqb x c); [reflexivity|].
    rewrite IH. destruct (partition c a) as [[? ?]|]; [reflexivity|].
    destruct (partition c s) as [[? ?]|]; reflexivity.
Qed.

Lemma partition_here c a b :
  has_char c a = false → partition c (a +:+ String c b) = Some (a, b).
Proof.
  intros Ha. rewrite partition_app.
  apply partition_None in Ha. rewrite Ha. str_simpl.
  by rewrite Ascii.eqb_refl, sapp_empty_r.
Qed.

Lemma break_at_app p x d t :
  p d = true →
  break_at p (x +:+ String d t) =
  ((break_at p x).1, (break_at p x).2 +:+ String d t).
Proof.
  intros Hd. induction x as [|c x IH]; str_simpl.
  - by rewrite Hd.
  - destruct (p c); [reflexivity|].
    rewrite IH. by destruct (break_at p x).
Qed.

Lemma break_at_has_char p c x :
  has_char c x = false →
  has_char c (break_at p x).1 = false ∧ has_char c (break_at p x).2 = false.
Proof.
  induction x as [|d x IH]; str_simpl; [done|].
  destruct (Ascii.eqb_spec d c) as [->|Hne]; [discriminate|].
  intros Hx. destruct (p d); str_simpl.
  - split; [reflexivity|]. by destruct (Ascii.eqb_spec d c).
  - destruct (IH Hx) as [H1 H2]. destruct (break_at p x) as [a b]; simpl in *.
    split; [|exact H2]. by destruct (Ascii.eqb_spec d c).
Qed.

Lemma lstrip_app p u d t :
  p d = false → lstrip p (u +:+ String d t) = lstrip p u +:+ String d t.
Proof.
  intros Hd. induction u as [|c u IH]; str_simpl.
  - by rewrite Hd.
  - destruct (p c); [exact IH | reflexivity].
Qed.

Lemma lstrip_has_char p c u : has_char c u = false → has_char c (lstrip p u) = false.
Proof.
  induction u as [|d u IH]; str_simpl; [done|].
  destruct (Ascii.eqb_spec d c) as [->|Hne]; [discriminate|].
  intros Hu. destruct (p d); [by apply IH|].
  str_simpl. by destruct (Ascii.eqb_spec d c).
Qed.

Lemma remove_chars_app p a b :
  remove_chars p (a +:+ b) = remove_chars p a +:+ remove_chars p b.
Proof.
  induction a as [|c a IH]; str_simpl; [reflexivity|].
  destruct (p c); [exact IH | by rewrite IH].
Qed.

Lemma remove_chars_has_char p c u :
  has_char c u = false → has_char c (remove_chars p u) = false.
Proof.
  induction u as [|d u IH]; str_simpl; [done|].
  destruct (Ascii.eqb_spec d c) as [->|Hne]; [discriminate|].
  intros Hu. destruct (p d); [by apply IH|].
  str_simpl. destruct (Ascii.eqb_spec d c); [contradiction | by apply IH].
Qed.

Lemma drop_has_char n c u : has_char c u = false → has_char c (drop n u) = false.
Proof.
  revert u. induction n as [|n IH]; intros [|d u]; str_simpl; try done.
  destruct (Ascii.eqb d c); [discriminate | apply IH].
Qed.

(** A string that ends with a slash is some string and the slash. *)
Lemma endswith_slash s : endswith "/" s = true → ∃ s0, s = s0 +:+ "/".
Proof.
  unfold endswith. induction s as [|c s IH]; str_simpl; [discriminate|].
  rewrite Nat.sub_0_r. destruct s as [|d s].
  - str_simpl. destruct (Ascii.eqb_spec c "/") as [->|]; [|discriminate].
    intros _. by exists "".
  - intros H. destruct IH as [s0 Hs0].
    + cbn [String.length]. cbn [String.length] in H.
      replace (S (String.length s) - 1)%nat with (String.length s) by lia.
      exact H.
    + exists (String c s0). str_simpl. by rewrite <- Hs0.
Qed.

Lemma slength_app (a b : string) :
  String.length (a +:+ b) = (String.length a + String.length b)%nat.
Proof. induction a as [|c a IH]; str_simpl; [done | by rewrite IH]. Qed.

Lemma startswith_app (p r : string) : startswith p (p +:+ r) = true.
Proof.
  induction p as [|c p IH]; [done|]. rewrite sapp_cons. cbn [startswith].
  by rewrite Ascii.eqb_refl, IH.
Qed.

Lemma startswith_inv (p s : string) :
  startswith p s = true → s = p +:+ drop (String.length p) s.
Proof.
  revert s. induction p as [|c p IH]; intros s; [done|].
  destruct s as [|d s]; [discriminate|]. cbn [startswith].
  intros [Hc Hp]%andb_true_iff. apply Ascii.eqb_eq in Hc as ->.
  rewrite sapp_cons. cbn [String.length drop]. by rewrite <- IH.
Qed.

Lemma sdrop_app (a b : string) : drop (String.length a) (a +:+ b) = b.
Proof. induction a as [|c a IH]; [done|]. by rewrite sapp_cons. Qed.

Lemma stake_app (a b : string) : take (String.length a) (a +:+ b) = a.
Proof.
  induction a as [|c a IH]; [by destruct b|]. rewrite sapp_cons.
  cbn [String.length take]. by rewrite IH.
Qed.

Lemma take_drop_all n s : take n s +:+ drop n s = s.
Proof.
  revert s. induction n as [|n IH]; intros [|c s]; try done.
  cbn [take drop]. by rewrite sapp_cons, IH.
Qed.

Lemma endswith_app (r p : string) : endswith p (r +:+ p) = true.
Proof.
  unfold endswith. rewrite slength_app.
  replace (String.length r + String.length p - String.length p)%nat
    with (String.length r) by lia.
  rewrite sdrop_app. apply String.eqb_refl.
Qed.

Lemma endswith_inv (p s : string) :
  endswith p s = true →
  s = take (String.length s - String.length p) s +:+ p.
Proof.
  unfold endswith. intros H%String.eqb_eq.
  symmetry. etransitivity; [|apply (take_drop_all (String.length s - String.length p))].
  by rewrite H.
Qed.

Lemma split_cons c s : ∃ p ps, split c s = p :: ps.
Proof.
  induction s as [|x s (p & ps & IH)]; simpl; [by eexists _, _|].
  rewrite IH. destruct (Ascii.eqb x c); by eexists _, _.
Qed.

Lemma split_app_sep c a b :
  split c (a +:+ String c b) = split c a ++ split c b.
Proof.
  induction a as [|x a IH]; str_simpl.
  - by rewrite Ascii.eqb_refl.
  - destruct (Ascii.eqb x c); [by rewrite IH|].
    rewrite IH. destruct (split_cons c a) as (p & ps & ->). reflexivity.
Qed.

Lemma split_no_sep c s : has_char c s = false → split c s = [s].
Proof.
  induction s as [|x s IH]; str_simpl; [reflexivity|].
  destruct (Ascii.eqb x c); [discriminate|].
  intros H. by rewrite (IH H).
Qed.

(** *** Searching from the right, and replacing *)














(** *** Stripping on the right *)


End PyStrFacts.

(* ===================================================================== *)
(** ** Properties of URL parsing and file names *)
(* ===================================================================== *)

Module UrlFacts.
Import PyStr UrlLib PyStrFacts.

Lemma basename_no_slash p : has_char "/" (basename p) = false.
Proof.
  induction p as [|c p IH]; simpl; [reflexivity|].
  destruct (Ascii.eqb_spec c "/") as [->|Hc]; [exact IH|].
  destruct (has_char "/" p) eqn:Hp; [exact IH|].
  simpl. by destruct (Ascii.eqb_spec c "/").
Qed.


Lemma basename_app_slash p q : basename (p +:+ String "/" q) = basename q.
Proof.
  induction p as [|c p IH]; str_simpl; [reflexivity|].
  destruct (Ascii.eqb c "/"); [exact IH|].
  rewrite has_char_app. simpl. by rewrite orb_true_r.
Qed.

Lemma basename_plain p : has_char "/" p = false → basename p = p.
Proof.
  destruct p as [|c p]; simpl; [done|].
  destruct (Ascii.eqb c "/"); [discriminate|]. by intros ->.
Qed.




Lemma split_once_absent c s : has_char c s = false → split_once c s = (s, "").
Proof. intros H. unfold split_once. apply partition_None in H. by rewrite H. Qed.

Lemma split_once_here c a b :
  has_char c a = false → split_once c (a +:+ String c b) = (a, b).
Proof. intros H. unfold split_once. by rewrite partition_here. Qed.

(** Splitting at [c] behind a different character [d] that follows a
    text without [c]: the text and [d] stay in the first part. *)
Lemma split_once_behind c d a t :
  c ≠ d → has_char c a = false →
  ∃ x y, split_once c (a +:+ String d t) = (a +:+ String d x, y).
Proof.
  intros Hcd Ha. unfold split_once. rewrite partition_app.
  apply partition_None in Ha. rewrite Ha. cbn [partition].
  destruct (Ascii.eqb_spec d c) as [->|_]; [contradiction|].
  destruct (partition c t) as [[x y]|]; by eexists _, _.
Qed.




Lemma starts_tail_cases d : starts_tail d = true → d = "?"%char ∨ d = "#"%char.
Proof.
  unfold starts_tail. intros H. apply orb_true_iff in H as [H|H];
    apply Ascii.eqb_eq in H; auto.
Qed.

Lemma split_scheme_rest c a : has_char c a = false → has_char c (split_scheme a).2 = false.
Proof.
  intros Ha. unfold split_scheme.
  destruct (partition ":" a) as [[pre post]|] eqn:E; [|exact Ha].
  destruct (_ && _); [|exact Ha]. simpl.
  apply partition_Some in E as [-> _].
  rewrite has_char_app in Ha. apply orb_false_elim in Ha as [_ Ha].
  cbn [has_char] in Ha. by destruct (Ascii.eqb ":" c).
Qed.

Lemma split_scheme_tail a d t :
  starts_tail d = true →
  split_scheme (a +:+ String d t) = ((split_scheme a).1, (split_scheme a).2 +:+ String d t).
Proof.
  intros Hd. unfold split_scheme. rewrite partition_app.
  destruct (partition ":" a) as [[pre post]|] eqn:E.
  - by destruct (_ && _).
  - simpl.
    assert (Ascii.eqb d ":" = false) as ->
      by (apply starts_tail_cases in Hd as [->| ->]; reflexivity).
    destruct (partition ":" t) as [[x y]|]; [|reflexivity].
    rewrite all_chars_app. simpl.
    assert (is_scheme_char d = false) as ->
      by (apply starts_tail_cases in Hd as [->| ->]; reflexivity).
    simpl. by rewrite andb_false_r, andb_false_r.
Qed.

Lemma prefix_slashes_tail a d t :
  starts_tail d = true →
  startswith "//" (a +:+ String d t) = startswith "//" a.
Proof.
  intros Hd. destruct a as [|c1 [|c2 a]]; rewrite ?sapp_cons, ?sapp_nil_l;
    cbn [startswith].
  - apply starts_tail_cases in Hd as [->| ->]; reflexivity.
  - destruct (Ascii.eqb "/" c1); [|reflexivity].
    apply starts_tail_cases in Hd as [->| ->]; reflexivity.
  - reflexivity.
Qed.

Lemma drop_app_tail n a t :
  (n ≤ String.length a)%nat → drop n (a +:+ t) = drop n a +:+ t.
Proof.
  revert a. induction n as [|n IH]; intros a Hn.
  - by destruct a.
  - destruct a as [|c a]; simpl in Hn; [lia|]. str_simpl. apply IH. lia.
Qed.

Lemma split_netloc_tail a d t :
  starts_tail d = true →
  split_netloc (a +:+ String d t) = ((split_netloc a).1, (split_netloc a).2 +:+ String d t).
Proof.
  intros Hd. unfold split_netloc. rewrite prefix_slashes_tail by done.
  destruct (startswith "//" a) eqn:Hp; [|reflexivity].
  rewrite drop_app_tail.
  - apply break_at_app.
    apply starts_tail_cases in Hd as [->| ->]; reflexivity.
  - destruct a as [|c1 [|c2 a]]; cbn [startswith String.length] in *;
      try discriminate; lia.
Qed.

Lemma split_netloc_rest c a : has_char c a = false → has_char c (split_netloc a).2 = false.
Proof.
  intros Ha. unfold split_netloc. destruct (startswith "//" a); [|exact Ha].
  apply break_at_has_char. by apply drop_has_char.
Qed.

(** Text appended after a question mark or a hash sign changes neither
    the scheme, nor the network location, nor the path of a URL that held
    neither sign. *)
Lemma urlsplit_parts_tail u d t :
  has_char "?" u = false → has_char "#" u = false → starts_tail d = true →
  scheme (urlsplit_parts (u +:+ String d t)) = scheme (urlsplit_parts u)
  ∧ netloc (urlsplit_parts (u +:+ String d t)) = netloc (urlsplit_parts u)
  ∧ path (urlsplit_parts (u +:+ String d t)) = path (urlsplit_parts u).
Proof.
  intros Hq Hf Hd. unfold urlsplit_parts.
  rewrite lstrip_app
    by (apply starts_tail_cases in Hd as [->| ->]; reflexivity).
  rewrite remove_chars_app.
  assert (remove_chars is_unsafe (String d t) = String d (remove_chars is_unsafe t)) as ->
    by (apply starts_tail_cases in Hd as [->| ->]; reflexivity).
  set (a := remove_chars is_unsafe (lstrip is_c0_or_space u)).
  assert (has_char "?" a = false) as Hqa
    by (by apply remove_chars_has_char, lstrip_has_char).
  assert (has_char "#" a = false) as Hfa
    by (by apply remove_chars_has_char, lstrip_has_char).
  rewrite split_scheme_tail by done.
  pose proof (split_scheme_rest "?" a Hqa) as Hq1.
  pose proof (split_scheme_rest "#" a Hfa) as Hf1.
  destruct (split_scheme a) as [sch u1]; simpl in *.
  rewrite split_netloc_tail by done.
  pose proof (split_netloc_rest "?" u1 Hq1) as Hq2.
  pose proof (split_netloc_rest "#" u1 Hf1) as Hf2.
  destruct (split_netloc u1) as [loc u2]; simpl in *.
  rewrite (split_once_absent "#" u2), (split_once_absent "?" u2) by done.
  apply starts_tail_cases in Hd as [->| ->].
  - destruct (split_once_behind "#" "?" u2 (remove_chars is_unsafe t))
      as (x & y & ->); [done | done |].
    by rewrite split_once_here.
  - rewrite split_once_here by done. by rewrite split_once_absent.
Qed.

Lemma url_path_tail u d t :
  has_char "?" u = false → has_char "#" u = false → starts_tail d = true →
  url_path (u +:+ String d t) = url_path u.
Proof.
  intros Hq Hf Hd. unfold url_path.
  destruct (urlsplit_parts_tail u d t Hq Hf Hd) as (-> & _ & ->). reflexivity.
Qed.

(** *** URLs with a plain host *)

Lemma all_chars_has_char p c s :
  all_chars p s = true → p c = false → has_char c s = false.
Proof.
  intros Hs Hc. induction s as [|d s IH]; simpl in *; [reflexivity|].
  apply andb_true_iff in Hs as [Hd Hs].
  destruct (Ascii.eqb_spec d c) as [->|_]; [congruence | by apply IH].
Qed.

Lemma all_chars_impl (p q : ascii → bool) s :
  (∀ c, p c = true → q c = true) → all_chars p s = true → all_chars q s = true.
Proof.
  intros Hpq. induction s as [|d s IH]; simpl; [done|].
  intros [Hd Hs]%andb_true_iff. by rewrite (Hpq _ Hd), IH.
Qed.

Lemma remove_chars_none p s :
  all_chars (λ c, negb (p c)) s = true → remove_chars p s = s.
Proof.
  induction s as [|d s IH]; simpl; [done|].
  intros [Hd Hs]%andb_true_iff. apply negb_true_iff in Hd. by rewrite Hd, IH.
Qed.

Lemma break_at_none p s :
  all_chars (λ c, negb (p c)) s = true → break_at p s = (s, "").
Proof.
  induction s as [|d s IH]; simpl; [done|].
  intros [Hd Hs]%andb_true_iff. apply negb_true_iff in Hd. by rewrite Hd, IH.
Qed.

Lemma scheme_char_safe c :
  is_scheme_char c = true → is_unsafe c = false ∧ is_c0_or_space c = false.
Proof. destruct c as [[] [] [] [] [] [] [] []]; vm_compute; by intros. Qed.

(** The parts of [scheme://host/rest]. *)
Lemma urlsplit_parts_host s h X :
  first_is is_ascii_alpha s = true →
  all_chars is_scheme_char s = true →
  all_chars host_char h = true →
  urlsplit_parts (s +:+ "://" +:+ h +:+ "/" +:+ X) =
  (let '(u3, frag) := split_once "#" ("/" +:+ remove_chars is_unsafe X) in
   let '(u4, qry) := split_once "?" u3 in
   mkSplit (lower s) h u4 qry frag).
Proof.
  intros Hs1 Hs Hh. unfold urlsplit_parts.
  assert (lstrip is_c0_or_space (s +:+ "://" +:+ h +:+ "/" +:+ X)
          = s +:+ "://" +:+ h +:+ "/" +:+ X) as ->.
  { destruct s as [|c s]; [discriminate|]. rewrite sapp_cons. cbn [lstrip].
    simpl in Hs. apply andb_true_iff in Hs as [Hc _].
    by destruct (scheme_char_safe c Hc) as [_ ->]. }
  rewrite !remove_chars_app.
  rewrite (remove_chars_none _ s)
    by (eapply all_chars_impl; [|exact Hs];
        by intros c [-> _]%scheme_char_safe).
  rewrite (remove_chars_none _ h)
    by (eapply all_chars_impl; [|exact Hh];
        by intros c [? _]%andb_true_iff).
  change (remove_chars is_unsafe "://") with "://".
  change (remove_chars is_unsafe "/") with "/".
  unfold split_scheme.
  change (s +:+ "://" +:+ h +:+ "/" +:+ remove_chars is_unsafe X)
    with (s +:+ String ":" ("//" +:+ h +:+ "/" +:+ remove_chars is_unsafe X)).
  rewrite partition_here by (by apply (all_chars_has_char is_scheme_char)).
  rewrite Hs1, Hs. cbn [andb].
  unfold split_netloc.
  change ("//" +:+ h +:+ "/" +:+ remove_chars is_unsafe X)
    with (String "/" (String "/" (h +:+ String "/" (remove_chars is_unsafe X)))).
  cbn [startswith drop]. rewrite Ascii.eqb_refl. cbn [andb].
  rewrite break_at_app by reflexivity.
  rewrite break_at_none
    by (eapply all_chars_impl; [|exact Hh];
        by intros c [_ ?]%andb_true_iff).
  reflexivity.
Qed.

Lemma netloc_host s h X :
  first_is is_ascii_alpha s = true →
  all_chars is_scheme_char s = true →
  all_chars host_char h = true →
  netloc (urlsplit_parts (s +:+ "://" +:+ h +:+ "/" +:+ X)) = h.
Proof.
  intros. rewrite urlsplit_parts_host by done.
  destruct (split_once "#" _) as [u3 frag]. by destruct (split_once "?" _).
Qed.

Lemma url_path_host s h X :
  first_is is_ascii_alpha s = true →
  all_chars is_scheme_char s = true →
  all_chars host_char h = true →
  all_chars path_char X = true →
  url_path (s +:+ "://" +:+ h +:+ "/" +:+ X) = "/" +:+ X.
Proof.
  intros H1 H2 H3 HX. unfold url_path. rewrite urlsplit_parts_host by done.
  rewrite remove_chars_none
    by (eapply all_chars_impl; [|exact HX];
        by intros c [[[? _]%andb_true_iff _]%andb_true_iff _]%andb_true_iff).
  assert (∀ c, path_char c = false → has_char c ("/" +:+ X) = false) as Hno.
  { intros c Hc. rewrite sapp_cons, sapp_nil_l. cbn [has_char].
    destruct (Ascii.eqb_spec "/" c) as [<-|_]; [discriminate|].
    by apply (all_chars_has_char path_char). }
  rewrite (split_once_absent "#") by (by apply Hno).
  rewrite (split_once_absent "?") by (by apply Hno).
  cbn [scheme path]. rewrite (Hno ";"%char) by done. by rewrite andb_false_r.
Qed.

(** *** Paths without a scheme and a host *)

Lemma basename_app_plain (q t : string) :
  has_char "/" t = false → basename (q +:+ t) = basename q +:+ t.
Proof.
  intros Ht. induction q as [|d r IH].
  - rewrite !sapp_nil_l. by apply basename_plain.
  - rewrite sapp_cons. cbn [basename]. rewrite has_char_app, Ht, orb_false_r.
    destruct (Ascii.eqb d "/"); [done|].
    destruct (has_char "/" r); [done|]. by rewrite sapp_cons.
Qed.






End UrlFacts.

(* ===================================================================== *)
(** ** Properties of the file system *)
(* ===================================================================== *)

Module FsFacts.
Import PyStr UrlLib Fs PyStrFacts.

Lemma is_dir_Some (fs : FS) (k : list string) : is_dir fs k = true ↔ ∃ m, fs !! k = Some (Dir m).
Proof.
  unfold is_dir. destruct (fs !! k) as [[c m|m]|]; split;
    try discriminate; try (intros [? [=]]); eauto.
Qed.

Lemma parent_ne (k : list string) : k ≠ [] → parent k ≠ k.
Proof.
  intros Hk Heq. apply (f_equal length) in Heq. unfold parent in Heq.
  destruct (exists_last Hk) as (k0 & x & ->).
  rewrite removelast_last, length_app in Heq. simpl in Heq. lia.
Qed.

Lemma parent_snoc (d : list string) c : parent (d ++ [c]) = d.
Proof. apply removelast_last. Qed.

(** Touching a directory changes no lookup outside it and keeps every
    node of its kind. *)
Lemma lookup_touch_ne (now : Z) (j k : list string) (fs : FS) : j ≠ k → touch now j fs !! k = fs !! k.
Proof. intros. unfold touch. by rewrite lookup_alter_ne. Qed.

Lemma lookup_touch_file (now : Z) (j k : list string) (fs : FS) c m :
  touch now j fs !! k = Some (File c m) ↔ fs !! k = Some (File c m).
Proof.
  unfold touch. destruct (decide (j = k)) as [->|Hne].
  - rewrite lookup_alter_eq. destruct (fs !! k) as [[c' m'|m']|]; simpl;
      split; congruence.
  - by rewrite lookup_alter_ne.
Qed.

Lemma lookup_touch_None (now : Z) (j k : list string) (fs : FS) : touch now j fs !! k = None ↔ fs !! k = None.
Proof.
  unfold touch. destruct (decide (j = k)) as [->|Hne].
  - rewrite lookup_alter_eq. destruct (fs !! k); simpl; split; congruence.
  - by rewrite lookup_alter_ne.
Qed.

Lemma is_dir_touch (now : Z) (j k : list string) (fs : FS) : is_dir (touch now j fs) k = is_dir fs k.
Proof.
  unfold is_dir, touch. destruct (decide (j = k)) as [->|Hne].
  - rewrite lookup_alter_eq. by destruct (fs !! k) as [[c m|m]|].
  - by rewrite lookup_alter_ne.
Qed.

Lemma is_dir_insert_fresh (fs : FS) (k j : list string) (n : Node) :
  fs !! k = None → is_dir fs j = true → is_dir (<[k := n]> fs) j = true.
Proof.
  intros Hk Hj. unfold is_dir in *. destruct (decide (k = j)) as [->|Hne].
  - by rewrite Hk in Hj.
  - by rewrite lookup_insert_ne.
Qed.

(** *** Path resolution *)

Lemma walk_filter (fs : FS) (cur cs k : list string) :
  walk fs cur cs = Ok k → walk fs cur (List.filter proper_part cs) = Ok k.
Proof.
  revert cur. induction cs as [|c cs IH]; intros cur; simpl; [done|].
  destruct (fs !! cur) as [[?|m]|] eqn:Hcur; try discriminate.
  intros Hw. unfold proper_part at 1. unfold step in Hw.
  destruct (String.eqb c "" || String.eqb c ".") eqn:Hc; simpl.
  - by apply IH.
  - rewrite Hcur. unfold step. rewrite Hc. by apply IH.
Qed.

(** Resolution looks at directories only: it is stable when every
    directory stays one. *)
Lemma walk_mono (fs fs' : FS) (cur cs k : list string) :
  (∀ j, is_dir fs j = true → is_dir fs' j = true) →
  walk fs cur cs = Ok k → walk fs' cur cs = Ok k.
Proof.
  intros Hd. revert cur. induction cs as [|c cs IH]; intros cur; simpl; [done|].
  destruct (fs !! cur) as [[?|m]|] eqn:Hcur; try discriminate.
  assert (is_dir fs' cur = true) as Hcur'
    by (apply Hd, is_dir_Some; eauto).
  apply is_dir_Some in Hcur' as [m' ->]. apply IH.
Qed.

Lemma walk_snoc (fs : FS) (cur cs : list string) (c : string) (k : list string) :
  walk fs cur (cs ++ [c]) = Ok k ↔
  ∃ d, walk fs cur cs = Ok d ∧ is_dir fs d = true ∧ k = step d c.
Proof.
  revert cur. induction cs as [|x cs IH]; intros cur; simpl.
  - split.
    + destruct (fs !! cur) as [[?|m]|] eqn:E; try discriminate.
      intros [= <-]. exists cur. unfold is_dir. by rewrite E.
    + intros (d & [= <-] & Hd & ->). by apply is_dir_Some in Hd as [m ->].
  - destruct (fs !! cur) as [[?|m]|]; [| apply IH |].
    all: split; [discriminate | by intros (d & [=] & _)].
Qed.

(** *** Creating and writing files *)

Lemma create_Ok (now : Z) (k : list string) (n : Node) (fs fs' : FS) :
  create now k n fs = (Ok (), fs') ↔
  k ≠ [] ∧ is_dir fs (parent k) = true ∧ fs' = touch now (parent k) (<[k := n]> fs).
Proof.
  unfold create. destruct k as [|x k]; [split; [discriminate | by intros [? _]]|].
  destruct (is_dir fs (parent (x :: k))); split.
  - by intros [= <-].
  - by intros (_ & _ & ->).
  - discriminate.
  - by intros (_ & ? & _).
Qed.

Lemma create_Raise (now : Z) (k : list string) (n : Node) (fs fs' : FS) e :
  create now k n fs = (Raise e, fs') → fs' = fs.
Proof.
  unfold create. destruct k as [|x k]; [by intros [= _ <-]|].
  destruct (is_dir fs _); [discriminate | by intros [= _ <-]].
Qed.

(** A failed [open] leaves the file system alone; a successful one has
    resolved the path to the file it made or emptied. *)
Lemma open_wb_Raise (cwd : list string) (now : Z) (p : string) (fs fs' : FS) e :
  open_wb cwd now p fs = (Raise e, fs') → fs' = fs.
Proof.
  unfold open_wb. destruct (resolve fs cwd p) as [k|]; [|by intros [= _ <-]].
  destruct (fs !! k) as [[c m|m]|]; try (by intros [= _ <-]).
  destruct (create now k _ fs) as [[[]|e'] fs1] eqn:E; [discriminate|].
  intros [= _ <-]. by apply create_Raise in E.
Qed.

Lemma open_wb_Ok (cwd : list string) (now : Z) (p : string) (fs fs' : FS) (k : list string) :
  open_wb cwd now p fs = (Ok k, fs') →
  resolve fs cwd p = Ok k ∧
  ((∃ c m, fs !! k = Some (File c m) ∧ fs' = <[k := File "" now]> fs)
   ∨ (fs !! k = None ∧ k ≠ [] ∧ is_dir fs (parent k) = true
      ∧ fs' = touch now (parent k) (<[k := File "" now]> fs))).
Proof.
  unfold open_wb. destruct (resolve fs cwd p) as [k'|]; [|discriminate].
  destruct (fs !! k') as [[c m|m]|] eqn:Hk; [| discriminate |].
  - intros [= <- <-]. split; [done|]. left. eauto.
  - destruct (create now k' _ fs) as [[[]|e'] fs1] eqn:E; [|discriminate].
    intros [= <- <-]. apply create_Ok in E as (? & ? & ->).
    split; [done|]. by right.
Qed.

Lemma length_drop n s : String.length (drop n s) = (String.length s - n)%nat.
Proof.
  revert s. induction n as [|n IH]; intros [|c s]; simpl; try reflexivity.
  apply IH.
Qed.

Lemma joined_chunks fuel n s :
  (0 < n)%nat → (String.length s ≤ fuel)%nat → joined (chunks fuel n s) = s.
Proof.
  intros Hn. revert s. induction fuel as [|fuel IH]; intros s Hs.
  - destruct s; [reflexivity | simpl in Hs; lia].
  - destruct s as [|c s]; [reflexivity|].
    cbn [chunks joined foldr]. fold (joined (chunks fuel n (drop n (String c s)))).
    rewrite IH; [apply take_drop_all|].
    rewrite length_drop. simpl in *. lia.
Qed.

(** Writing the pieces to a file that was just opened leaves the file
    with the whole text. *)
Lemma fd_write_all (now : Z) (k : list string) (c : string) (cs : list string) (fs : FS) :
  fs !! k = Some (File c now) →
  foldl (λ f x, fd_write now k x f) fs cs = <[k := File (c +:+ joined cs) now]> fs.
Proof.
  revert c fs. induction cs as [|x cs IH]; intros c fs Hk; simpl.
  - rewrite sapp_empty_r. by rewrite insert_id.
  - rewrite (IH (c +:+ x)).
    + unfold fd_write. rewrite sapp_assoc.
      apply map_eq. intros j. destruct (decide (k = j)) as [->|Hne].
      * by rewrite !lookup_insert_eq.
      * by rewrite !lookup_insert_ne, lookup_alter_ne.
    + unfold fd_write. by rewrite lookup_alter_eq, Hk.
Qed.

(** *** Making directories *)

Lemma os_mkdir_Ok (cwd : list string) (now : Z) (P : PurePath) (fs fs' : FS) :
  os_mkdir cwd now P fs = (Ok (), fs') →
  ∃ k, path_resolve fs cwd P = Ok k ∧ fs !! k = None ∧ k ≠ []
       ∧ is_dir fs (parent k) = true
       ∧ fs' = touch now (parent k) (<[k := Dir now]> fs).
Proof.
  unfold os_mkdir. destruct (path_resolve fs cwd P) as [k|]; [|discriminate].
  destruct (fs !! k) eqn:Hk; [discriminate|].
  intros (? & ? & ->)%create_Ok. by exists k.
Qed.

Lemma os_mkdir_Raise (cwd : list string) (now : Z) (P : PurePath) (fs fs' : FS) e :
  os_mkdir cwd now P fs = (Raise e, fs') → fs' = fs.
Proof.
  unfold os_mkdir. destruct (path_resolve fs cwd P) as [k|]; [|by intros [= _ <-]].
  destruct (fs !! k) eqn:Hk; [by intros [= _ <-]|]. apply create_Raise.
Qed.

(** A directory that was just made is found as one. *)
Lemma os_mkdir_is_dir (cwd : list string) (now : Z) (P : PurePath) (fs fs' : FS) :
  os_mkdir cwd now P fs = (Ok (), fs') → path_is_dir fs' cwd P = true.
Proof.
  intros (k & Hres & Hnone & Hne & Hpar & ->)%os_mkdir_Ok.
  unfold path_is_dir, path_resolve in *.
  erewrite walk_mono; [| |exact Hres].
  - rewrite is_dir_touch. unfold is_dir. by rewrite lookup_insert_eq.
  - intros j Hj. rewrite is_dir_touch. by apply is_dir_insert_fresh.
Qed.

(** Whenever [Path.mkdir(parents=True, exist_ok=True)] returns, the path
    is a directory. *)
Lemma mkdir_parents_is_dir (cwd : list string) (now : Z) (anch : bool)
    (rparts : list string) (fs fs' : FS) :
  mkdir_parents cwd now anch rparts fs = (Ok (), fs') →
  path_is_dir fs' cwd (mkPath anch (rev rparts)) = true.
Proof.
  destruct rparts as [|c rparts]; cbn [mkdir_parents].
  - destruct (os_mkdir cwd now _ fs) as [[[]|e] fs1] eqn:E.
    + intros [= <-]. by apply os_mkdir_is_dir in E.
    + destruct e; try discriminate;
        (destruct (path_is_dir fs cwd _) eqn:Hd; [|discriminate]);
        by intros [= <-].
  - destruct (os_mkdir cwd now _ fs) as [[[]|e] fs1] eqn:E.
    + intros [= <-]. by apply os_mkdir_is_dir in E.
    + destruct e;
        try (destruct (path_is_dir fs cwd _) eqn:Hd; [|discriminate];
             by intros [= <-]).
      destruct (mkdir_parents cwd now anch rparts fs) as [[[]|e] fs2];
        [|discriminate].
      destruct (os_mkdir cwd now _ fs2) as [[[]|e] fs3] eqn:E2.
      * intros [= <-]. by apply os_mkdir_is_dir in E2.
      * destruct e; try discriminate;
          (destruct (path_is_dir fs2 cwd _) eqn:Hd; [|discriminate]);
          by intros [= <-].
Qed.

Lemma step_plain (cur : list string) (c : string) :
  plain_part c = true → step cur c = cur ++ [c].
Proof.
  unfold plain_part, proper_part, step.
  destruct (String.eqb c "" || String.eqb c "."); [discriminate|].
  by destruct (String.eqb c "..").
Qed.

(** Down a path of plain components without a file on the way,
    resolution reaches the end or misses a directory. *)
Lemma walk_plain (fs : FS) (o ps : list string) :
  Forall (λ c, plain_part c = true) ps →
  no_file_on fs o ps →
  walk fs o ps = Ok (o ++ ps) ∨ walk fs o ps = Raise FileNotFoundError.
Proof.
  intros Hps. revert o. induction Hps as [|c ps Hc Hps IH]; intros o Hnf.
  - left. by rewrite app_nil_r.
  - cbn [walk]. destruct (fs !! o) as [[x m|m]|] eqn:Ho.
    + exfalso. apply (Hnf [] (prefix_nil _) x m). by rewrite app_nil_r.
    + rewrite step_plain by done.
      destruct (IH (o ++ [c])) as [->| ->]; [| left | by right].
      * intros q Hq x m'. rewrite <- app_assoc. by apply Hnf, prefix_cons.
      * by rewrite <- app_assoc.
    + by right.
Qed.

Lemma made_refl (fs : FS) (k : list string) : is_dir fs k = true → made fs fs k.
Proof. by intros. Qed.

Lemma made_trans (fs1 fs2 fs3 : FS) (j k : list string) :
  made fs1 fs2 j → made fs2 fs3 k → made fs1 fs3 k.
Proof.
  intros (_ & Hd1 & Hf1) (Hk & Hd2 & Hf2). split; [done|]. split.
  - intros i Hi. by apply Hd2, Hd1.
  - intros i c m. by rewrite Hf2, Hf1.
Qed.

Lemma made_create (now : Z) (fs : FS) (k : list string) :
  fs !! k = None → k ≠ [] →
  made fs (touch now (parent k) (<[k := Dir now]> fs)) k.
Proof.
  intros Hk Hne. split; [|split].
  - rewrite is_dir_touch. unfold is_dir. by rewrite lookup_insert_eq.
  - intros j Hj. rewrite is_dir_touch. by apply is_dir_insert_fresh.
  - intros j c m. rewrite lookup_touch_file.
    destruct (decide (k = j)) as [<-|Hkj].
    + rewrite lookup_insert_eq, Hk. split; discriminate.
    + by rewrite lookup_insert_ne.
Qed.

(** One [os.mkdir] on a path that resolves: the directory is made, or it
    was there. *)
Lemma mkdir_try (cwd : list string) (now : Z) (anch : bool) (ps : list string) (fs : FS) :
  let o := origin cwd anch in
  walk fs o ps = Ok (o ++ ps) →
  (fs !! (o ++ ps) = None → o ++ ps ≠ [] ∧ is_dir fs (parent (o ++ ps)) = true) →
  (∀ c m, fs !! (o ++ ps) ≠ Some (File c m)) →
  ∃ fs', (os_mkdir cwd now (mkPath anch ps) fs = (Ok (), fs')
          ∨ (os_mkdir cwd now (mkPath anch ps) fs = (Raise FileExistsError, fs)
             ∧ fs' = fs ∧ path_is_dir fs cwd (mkPath anch ps) = true))
        ∧ made fs fs' (o ++ ps) ∧ walk fs' o ps = Ok (o ++ ps).
Proof.
  intros o Hw Hnone Hnf.
  unfold os_mkdir, path_is_dir, path_resolve. cbn [anchored parts]. fold o.
  rewrite Hw. destruct (fs !! (o ++ ps)) as [[c m|m]|] eqn:Hk.
  - by destruct (Hnf c m).
  - exists fs. assert (is_dir fs (o ++ ps) = true) as Hd
      by (unfold is_dir; by rewrite Hk).
    split; [by right|]. split; [by apply made_refl | done].
  - destruct (Hnone eq_refl) as [Hne Hpar].
    exists (touch now (parent (o ++ ps)) (<[o ++ ps := Dir now]> fs)).
    split; [left; by apply create_Ok|].
    pose proof (made_create now fs (o ++ ps) Hk Hne) as Hm.
    split; [done|]. eapply walk_mono; [|exact Hw]. apply Hm.
Qed.

(** [Path.mkdir(parents=True, exist_ok=True)] succeeds on a path of plain
    components from an existing directory with no file on the way, and
    makes every directory that is missing. *)
Lemma mkdir_parents_plain (cwd : list string) (now : Z) (anch : bool)
    (rparts : list string) (fs : FS) :
  let o := origin cwd anch in
  Forall (λ c, plain_part c = true) rparts →
  is_dir fs o = true →
  no_file_on fs o (rev rparts) →
  ∃ fs', mkdir_parents cwd now anch rparts fs = (Ok (), fs')
         ∧ made fs fs' (o ++ rev rparts)
         ∧ walk fs' o (rev rparts) = Ok (o ++ rev rparts).
Proof.
  intros o Hps. revert fs. induction Hps as [|c rps Hc Hps IH]; intros fs Ho Hnf.
  - cbn [mkdir_parents rev].
    destruct (mkdir_try cwd now anch [] fs) as (fs' & Hmk & Hmade & Hw).
    + cbn [walk]. by rewrite app_nil_r.
    + fold o. rewrite app_nil_r. intros Hn. unfold is_dir in Ho. by rewrite Hn in Ho.
    + intros x m. apply (Hnf [] (prefix_nil _)).
    + exists fs'. split; [|done].
      destruct Hmk as [->|(-> & -> & ->)]; reflexivity.
  - assert (no_file_on fs o (rev rps)) as Hnf'.
    { intros q Hq. apply Hnf. cbn [rev]. by apply prefix_app_r. }
    assert (Forall (λ c, plain_part c = true) (rev rps ++ [c])) as Hall.
    { apply Forall_app. split; [by apply Forall_rev | by constructor]. }
    assert (∀ f : FS, (∀ j x m, f !! j = Some (File x m) ↔ fs !! j = Some (File x m)) →
            ∀ x m, f !! (o ++ rev rps ++ [c]) ≠ Some (File x m)) as Hnofile.
    { intros f Hf x m Hx. apply Hf in Hx. by apply (Hnf _ (reflexivity _) x m). }
    cbn [mkdir_parents rev].
    destruct (walk_plain fs o (rev rps ++ [c]) Hall Hnf) as [Hw|Hw].
    + (* the parent is there *)
      destruct (mkdir_try cwd now anch (rev rps ++ [c]) fs) as (fs' & Hmk & Hmade & Hw').
      * done.
      * intros _. fold o. rewrite app_assoc.
        split; [by destruct (o ++ rev rps)|].
        apply walk_snoc in Hw as (d & _ & Hd & Hk).
        rewrite step_plain in Hk by done. rewrite app_assoc in Hk.
        apply app_inj_tail in Hk as [<- _].
        by rewrite parent_snoc.
      * apply Hnofile. tauto.
      * exists fs'. split; [|done].
        destruct Hmk as [->|(-> & -> & ->)]; reflexivity.
    + (* a directory is missing on the way *)
      assert (os_mkdir cwd now (mkPath anch (rev rps ++ [c])) fs
              = (Raise FileNotFoundError, fs)) as ->.
      { unfold os_mkdir, path_resolve. cbn [anchored parts]. fold o. by rewrite Hw. }
      destruct (IH fs Ho Hnf') as (fs1 & -> & Hmade1 & Hw1).
      destruct (mkdir_try cwd now anch (rev rps ++ [c]) fs1) as (fs' & Hmk & Hmade & Hw').
      * fold o. apply walk_snoc. exists (o ++ rev rps).
        split; [done|]. split; [by destruct Hmade1 as (? & _)|].
        rewrite step_plain by done. by rewrite app_assoc.
      * intros _. fold o. rewrite app_assoc.
        split; [by destruct (o ++ rev rps)|].
        rewrite parent_snoc. by destruct Hmade1 as (? & _).
      * apply Hnofile. apply Hmade1.
      * exists fs'. split; [|split; [by eapply made_trans|done]].
        destruct Hmk as [->|(-> & -> & ->)]; reflexivity.
Qed.

(** *** The tests are sound *)

Lemma wf_fsb_sound (fs : FS) : wf_fsb fs = true → wf_fs fs.
Proof.
  unfold wf_fsb. intros [Hroot Hall]%andb_true_iff. split; [done|].
  intros k n Hk. rewrite forallb_forall in Hall.
  apply (Hall (k, n)). by apply list_elem_of_In, elem_of_map_to_list.
Qed.

Lemma no_file_onb_sound (fs : FS) (o ps : list string) :
  no_file_onb fs o ps = true → no_file_on fs o ps.
Proof.
  revert o. induction ps as [|c ps IH]; intros o; cbn [no_file_onb];
    intros [Ho Hps]%andb_true_iff; intros q Hq x m Hx.
  - apply prefix_nil_inv in Hq as ->. rewrite app_nil_r in Hx.
    unfold file_at in Ho. by rewrite Hx in Ho.
  - destruct q as [|c' q].
    + rewrite app_nil_r in Hx. unfold file_at in Ho. by rewrite Hx in Ho.
    + apply prefix_cons_inv_1 in Hq as Hc. subst c'.
      apply prefix_cons_inv_2 in Hq.
      apply (IH (o ++ [c]) Hps q Hq x m). by rewrite <- app_assoc.
Qed.

(** *** Removing old entries *)

Lemma elem_of_selected (now N : Z) (s : list string) (b : bool) (fs : FS)
    (k : list string) :
  k ∈ selected now N s b fs ↔
  ∃ n, fs !! k = Some n ∧ below s k = true ∧ mtime_plus now N n = true
       ∧ is_file n = b.
Proof.
  unfold selected. rewrite list_elem_of_fmap. split.
  - intros ([k' n] & -> & Hin). apply elem_of_map_to_list in Hin.
    apply map_lookup_filter_Some in Hin as [Hk HP]. cbn in HP.
    apply andb_true_iff in HP as [[H1 H2]%andb_true_iff H3].
    apply Bool.eqb_prop in H3. by exists n.
  - intros (n & Hk & H1 & H2 & H3). exists (k, n). split; [done|].
    apply elem_of_map_to_list, map_lookup_filter_Some. split; [done|]. cbn.
    rewrite H1, H2, H3. by destruct b.
Qed.

Lemma lookup_remove_file (now : Z) (k0 k : list string) (fs : FS) c m :
  remove_entry now k0 fs !! k = Some (File c m) ↔
  k ≠ k0 ∧ fs !! k = Some (File c m).
Proof.
  unfold remove_entry. rewrite lookup_touch_file, lookup_delete_Some.
  split; intros [? ?]; split; congruence.
Qed.

Lemma lookup_remove_None (now : Z) (k0 k : list string) (fs : FS) :
  fs !! k = None ∨ k = k0 → remove_entry now k0 fs !! k = None.
Proof.
  intros H. unfold remove_entry. rewrite lookup_touch_None, lookup_delete_None.
  destruct H; auto.
Qed.


(** The files that remain after the selected files are removed. *)
Lemma foldr_remove_file (now : Z) (ks : list (list string)) (fs : FS)
    (k : list string) c m :
  foldr (remove_entry now) fs ks !! k = Some (File c m) ↔
  k ∉ ks ∧ fs !! k = Some (File c m).
Proof.
  induction ks as [|k0 ks IH]; cbn [foldr].
  - split; [intros ?; split; [apply not_elem_of_nil | done] | by intros [_ ?]].
  - rewrite lookup_remove_file, IH, not_elem_of_cons. tauto.
Qed.

Lemma foldr_remove_gone (now : Z) (ks : list (list string)) (fs : FS)
    (k : list string) :
  fs !! k = None ∨ k ∈ ks → foldr (remove_entry now) fs ks !! k = None.
Proof.
  induction ks as [|k0 ks IH]; cbn [foldr].
  - intros [?|?%elem_of_nil]; done.
  - intros H. apply lookup_remove_None.
    destruct H as [H|[->|H]%elem_of_cons]; auto.
Qed.







Lemma has_entries_true (fs : FS) (d k : list string) (n : Node) :
  fs !! k = Some n → d ≠ k → d `prefix_of` k → has_entries fs d = true.
Proof.
  intros Hk Hne Hpre. unfold has_entries. apply bool_decide_eq_true.
  apply map_Exists_lookup. by exists k, n.
Qed.






(** *** Well-formed file systems stay well-formed *)

Lemma is_dir_alter (f : Node → Node) (j k : list string) (fs : FS) :
  (∀ n, is_file (f n) = is_file n) →
  is_dir (alter f j fs) k = is_dir fs k.
Proof.
  intros Hf. unfold is_dir. destruct (decide (j = k)) as [->|Hne].
  - rewrite lookup_alter_eq. destruct (fs !! k) as [n|]; [|done]. cbn.
    specialize (Hf n). destruct n; destruct (f _); cbn in *; congruence.
  - by rewrite lookup_alter_ne.
Qed.

Lemma wf_alter (f : Node → Node) (j : list string) (fs : FS) :
  (∀ n, is_file (f n) = is_file n) → wf_fs fs → wf_fs (alter f j fs).
Proof.
  intros Hf [Hroot Hall]. split; [by rewrite is_dir_alter|].
  intros k n Hk. rewrite is_dir_alter by done.
  assert (is_Some (fs !! k)) as [n' Hn']
    by (apply (lookup_alter_is_Some f fs j k); eauto).
  by apply (Hall k n').
Qed.

Lemma wf_touch (now : Z) (j : list string) (fs : FS) :
  wf_fs fs → wf_fs (touch now j fs).
Proof. apply wf_alter. by intros []. Qed.

Lemma wf_fd_write (now : Z) (k : list string) (x : string) (fs : FS) :
  wf_fs fs → wf_fs (fd_write now k x fs).
Proof. apply wf_alter. by intros []. Qed.

Lemma wf_insert_new (fs : FS) (k : list string) (n : Node) :
  wf_fs fs → fs !! k = None → is_dir fs (parent k) = true →
  wf_fs (<[k := n]> fs).
Proof.
  intros [Hroot Hall] Hk Hpar. split; [by apply is_dir_insert_fresh|].
  intros j n' Hj. apply is_dir_insert_fresh; [done|].
  destruct (decide (k = j)) as [<-|Hne]; [done|].
  rewrite lookup_insert_ne in Hj by done. by apply (Hall j n').
Qed.

Lemma wf_replace_file (fs : FS) (k : list string) (c c' : string) (m m' : Z) :
  fs !! k = Some (File c m) → wf_fs fs → wf_fs (<[k := File c' m']> fs).
Proof.
  intros Hk Hwf.
  assert (<[k := File c' m']> fs = alter (λ _, File c' m') k (<[k := File c m]> fs)) as ->.
  { by rewrite alter_insert_eq. }
  rewrite insert_id by done.
  split; [|intros j n Hj].
  - unfold is_dir. destruct (decide (k = [])) as [->|Hne].
    + destruct Hwf as [Hroot _]. unfold is_dir in Hroot. by rewrite Hk in Hroot.
    + rewrite lookup_alter_ne by done. apply Hwf.
  - assert (is_Some (fs !! j)) as [n' Hn']
      by (apply (lookup_alter_is_Some (λ _, File c' m') fs k j); eauto).
    destruct Hwf as [_ Hall]. specialize (Hall j n' Hn').
    unfold is_dir in *. destruct (decide (k = parent j)) as [->|Hne].
    + by rewrite Hk in Hall.
    + by rewrite lookup_alter_ne.
Qed.

Lemma parent_prefix (j : list string) : parent j `prefix_of` j.
Proof.
  destruct (decide (j = [])) as [->|Hne]; [done|].
  exists [List.last j ""]. by apply app_removelast_last.
Qed.

Lemma wf_delete (fs : FS) (k : list string) :
  wf_fs fs → k ≠ [] → has_entries fs k = false → wf_fs (delete k fs).
Proof.
  intros [Hroot Hall] Hk Hempty. split.
  - unfold is_dir in *. by rewrite lookup_delete_ne.
  - intros j n [Hkj Hj]%lookup_delete_Some.
    specialize (Hall j n Hj). unfold is_dir in *.
    rewrite lookup_delete_ne; [done|]. intros ->.
    rewrite (has_entries_true fs _ j n Hj) in Hempty; [done|done|].
    apply parent_prefix.
Qed.

Lemma wf_remove_entry (now : Z) (fs : FS) (k : list string) :
  wf_fs fs → fs !! k = None ∨ (k ≠ [] ∧ has_entries fs k = false) →
  wf_fs (remove_entry now k fs).
Proof.
  intros Hwf [Hk|[Hk Hempty]]; unfold remove_entry; apply wf_touch.
  - by rewrite delete_id.
  - by apply wf_delete.
Qed.

(** Nothing lies below a regular file. *)
Lemma wf_file_leaf (fs : FS) (k : list string) (c : string) (m : Z) :
  wf_fs fs → fs !! k = Some (File c m) → has_entries fs k = false.
Proof.
  intros [_ Hall] Hk. unfold has_entries. apply bool_decide_eq_false.
  intros (j & n & Hj & Hne & [t ->])%map_Exists_lookup.
  revert n Hj Hne. induction t as [|x t IH] using rev_ind; intros n Hj Hne.
  - by rewrite app_nil_r in Hne.
  - specialize (Hall _ _ Hj). rewrite app_assoc, parent_snoc in Hall.
    apply is_dir_Some in Hall as [m' Hm'].
    destruct t as [|y t]; [rewrite app_nil_r in Hm'; congruence|].
    apply (IH _ Hm'). intros E. apply (f_equal length) in E.
    rewrite length_app in E. cbn in E. lia.
Qed.

Lemma wf_rmdir (now : Z) (fs : FS) (k : list string) :
  wf_fs fs → wf_fs (rmdir_if_empty now fs k).
Proof.
  intros Hwf. unfold rmdir_if_empty. destruct k as [|x k]; [done|].
  destruct (has_entries fs (x :: k)) eqn:He; [done|].
  apply wf_remove_entry; [done|]. by right.
Qed.

Lemma wf_foldl_rmdir (now : Z) (ds : list (list string)) (fs : FS) :
  wf_fs fs → wf_fs (foldl (rmdir_if_empty now) fs ds).
Proof.
  revert fs. induction ds as [|d ds IH]; intros fs Hwf; cbn [foldl]; [done|].
  by apply IH, wf_rmdir.
Qed.

Lemma wf_foldr_remove (now : Z) (ks : list (list string)) (fs : FS) :
  wf_fs fs →
  (∀ k, k ∈ ks → ∃ c m, fs !! k = Some (File c m)) →
  wf_fs (foldr (remove_entry now) fs ks).
Proof.
  intros Hwf. induction ks as [|k0 ks IH]; intros Hks; cbn [foldr]; [done|].
  assert (wf_fs (foldr (remove_entry now) fs ks)) as Hwf'
    by (apply IH; intros k Hk; apply Hks; by right).
  apply wf_remove_entry; [done|].
  destruct (Hks k0) as (c & m & Hk0); [by left|].
  destruct (decide (k0 ∈ ks)) as [Hin|Hnot].
  - left. apply foldr_remove_gone. by right.
  - right. assert (foldr (remove_entry now) fs ks !! k0 = Some (File c m)) as Hf
      by (by apply foldr_remove_file).
    split; [|by apply (wf_file_leaf _ _ c m)].
    intros ->. destruct Hwf' as [Hroot _]. unfold is_dir in Hroot.
    by rewrite Hf in Hroot.
Qed.

Lemma wf_find_mtime_delete (cwd : list string) (now : Z) (start : string)
    (N : Z) (fs : FS) :
  wf_fs fs → wf_fs (find_mtime_delete cwd now start N fs).
Proof.
  intros Hwf. unfold find_mtime_delete.
  destruct (resolve fs cwd start) as [s|]; [|done].
  apply wf_foldl_rmdir, wf_foldr_remove; [done|].
  intros k (n & Hn & _ & _ & Hkind)%elem_of_selected.
  destruct n as [c m|m]; [eauto | discriminate].
Qed.

Lemma wf_create (now : Z) (k : list string) (n : Node) (fs fs' : FS) r :
  create now k n fs = (r, fs') → fs !! k = None → wf_fs fs → wf_fs fs'.
Proof.
  unfold create. destruct k as [|x k]; [by intros [= _ <-]|].
  destruct (is_dir fs (parent (x :: k))) eqn:Hpar; [|by intros [= _ <-]].
  intros [= _ <-] Hk Hwf. by apply wf_touch, wf_insert_new.
Qed.

Lemma wf_os_mkdir (cwd : list string) (now : Z) (P : PurePath) (fs fs' : FS) r :
  os_mkdir cwd now P fs = (r, fs') → wf_fs fs → wf_fs fs'.
Proof.
  unfold os_mkdir. destruct (path_resolve fs cwd P) as [k|]; [|by intros [= _ <-]].
  destruct (fs !! k) eqn:Hk; [by intros [= _ <-]|].
  intros Hc. by apply (wf_create _ _ _ _ _ _ Hc).
Qed.

Lemma wf_mkdir_parents (cwd : list string) (now : Z) (anch : bool)
    (rparts : list string) (fs fs' : FS) r :
  mkdir_parents cwd now anch rparts fs = (r, fs') → wf_fs fs → wf_fs fs'.
Proof.
  revert fs fs' r. induction rparts as [|c rparts IH]; intros fs fs' r;
    cbn [mkdir_parents].
  - destruct (os_mkdir cwd now _ fs) as [[[]|e] fs1] eqn:E.
    + intros [= _ <-]. by apply (wf_os_mkdir _ _ _ _ _ _ E).
    + destruct e; try (by intros [= _ <-]);
        by (destruct (path_is_dir fs cwd _); intros [= _ <-]).
  - destruct (os_mkdir cwd now _ fs) as [[[]|e] fs1] eqn:E.
    + intros [= _ <-]. by apply (wf_os_mkdir _ _ _ _ _ _ E).
    + destruct e;
        try (by (destruct (path_is_dir fs cwd _); intros [= _ <-])).
      destruct (mkdir_parents cwd now anch rparts fs) as [[[]|e] fs2] eqn:E1.
      * intros Hrun Hwf. pose proof (IH _ _ _ E1 Hwf) as Hwf2. revert Hrun.
        destruct (os_mkdir cwd now _ fs2) as [[[]|e] fs3] eqn:E2.
        -- intros [= _ <-]. by apply (wf_os_mkdir _ _ _ _ _ _ E2).
        -- destruct e; try (by intros [= _ <-]);
             by (destruct (path_is_dir fs2 cwd _); intros [= _ <-]).
      * intros [= _ <-]. by apply (IH _ _ _ E1).
Qed.

Lemma wf_open_wb (cwd : list string) (now : Z) (p : string) (fs fs' : FS) r :
  open_wb cwd now p fs = (r, fs') → wf_fs fs → wf_fs fs'.
Proof.
  unfold open_wb. destruct (resolve fs cwd p) as [k|]; [|by intros [= _ <-]].
  destruct (fs !! k) as [[c m|m]|] eqn:Hk.
  - intros [= _ <-]. by apply (wf_replace_file _ _ c _ m).
  - by intros [= _ <-].
  - destruct (create now k _ fs) as [[[]|e] fs1] eqn:E; intros [= _ <-];
      by apply (wf_create _ _ _ _ _ _ E).
Qed.

(** *** Making directories adds directories and nothing else *)

Lemma extends_refl (fs : FS) : extends fs fs.
Proof. by split. Qed.

Lemma extends_trans (fs1 fs2 fs3 : FS) :
  extends fs1 fs2 → extends fs2 fs3 → extends fs1 fs3.
Proof.
  intros [F1 D1] [F2 D2]. split.
  - intros j c m. by rewrite F2, F1.
  - intros j Hj. by apply D2, D1.
Qed.

Lemma extends_create (now : Z) (fs : FS) (k : list string) :
  fs !! k = None → extends fs (touch now (parent k) (<[k := Dir now]> fs)).
Proof.
  intros Hk. split.
  - intros j c m. rewrite lookup_touch_file.
    destruct (decide (k = j)) as [<-|Hne].
    + rewrite lookup_insert_eq, Hk. split; discriminate.
    + by rewrite lookup_insert_ne.
  - intros j Hj. rewrite is_dir_touch. by apply is_dir_insert_fresh.
Qed.

Lemma os_mkdir_extends (cwd : list string) (now : Z) (P : PurePath)
    (fs fs' : FS) r :
  os_mkdir cwd now P fs = (r, fs') → extends fs fs'.
Proof.
  destruct r as [[]|e]; intros H.
  - apply os_mkdir_Ok in H as (k & _ & Hk & _ & _ & ->). by apply extends_create.
  - apply os_mkdir_Raise in H as ->. apply extends_refl.
Qed.

Lemma mkdir_parents_extends (cwd : list string) (now : Z) (anch : bool)
    (rparts : list string) (fs fs' : FS) r :
  mkdir_parents cwd now anch rparts fs = (r, fs') → extends fs fs'.
Proof.
  revert fs fs' r. induction rparts as [|c rparts IH]; intros fs fs' r;
    cbn [mkdir_parents].
  - destruct (os_mkdir cwd now _ fs) as [[[]|e] fs1] eqn:E.
    + intros [= _ <-]. by apply (os_mkdir_extends _ _ _ _ _ _ E).
    + destruct e; try (by intros [= _ <-]; apply extends_refl);
        by (destruct (path_is_dir fs cwd _); intros [= _ <-]; apply extends_refl).
  - destruct (os_mkdir cwd now _ fs) as [[[]|e] fs1] eqn:E.
    + intros [= _ <-]. by apply (os_mkdir_extends _ _ _ _ _ _ E).
    + destruct e;
        try (by (destruct (path_is_dir fs cwd _); intros [= _ <-];
                 apply extends_refl)).
      destruct (mkdir_parents cwd now anch rparts fs) as [[[]|e] fs2] eqn:E1.
      * intros Hrun. pose proof (IH _ _ _ E1) as H12. revert Hrun.
        destruct (os_mkdir cwd now _ fs2) as [[[]|e] fs3] eqn:E2.
        -- intros [= _ <-]. apply (extends_trans _ _ _ H12).
           by apply (os_mkdir_extends _ _ _ _ _ _ E2).
        -- destruct e; try (by intros [= _ <-]);
             by (destruct (path_is_dir fs2 cwd _); intros [= _ <-]).
      * intros [= _ <-]. by apply (IH _ _ _ E1).
Qed.

(** [exist_ok]: on a directory that is there, nothing is done. *)
Lemma mkdir_parents_present (cwd : list string) (now : Z) (anch : bool)
    (rparts : list string) (fs : FS) :
  path_is_dir fs cwd (mkPath anch (rev rparts)) = true →
  mkdir_parents cwd now anch rparts fs = (Ok (), fs).
Proof.
  intros Hd.
  assert (os_mkdir cwd now (mkPath anch (rev rparts)) fs
          = (Raise FileExistsError, fs)) as Hos.
  { unfold os_mkdir. unfold path_is_dir in Hd.
    destruct (path_resolve fs cwd _) as [k|]; [|discriminate].
    apply is_dir_Some in Hd as [m Hm]. by rewrite Hm. }
  destruct rparts; cbn [mkdir_parents]; by rewrite Hos, Hd.
Qed.

(** A regular file at the path itself: [FileExistsError]. *)
Lemma mkdir_parents_on_file (cwd : list string) (now : Z) (anch : bool)
    (rparts : list string) (fs : FS) (k : list string) c m :
  path_resolve fs cwd (mkPath anch (rev rparts)) = Ok k →
  fs !! k = Some (File c m) →
  mkdir_parents cwd now anch rparts fs = (Raise FileExistsError, fs).
Proof.
  intros Hres Hk.
  assert (os_mkdir cwd now (mkPath anch (rev rparts)) fs
          = (Raise FileExistsError, fs)) as Hos.
  { unfold os_mkdir. by rewrite Hres, Hk. }
  assert (path_is_dir fs cwd (mkPath anch (rev rparts)) = false) as Hd.
  { unfold path_is_dir, is_dir. by rewrite Hres, Hk. }
  destruct rparts; cbn [mkdir_parents]; by rewrite Hos, Hd.
Qed.

(** A regular file on the way to the path: [NotADirectoryError]. *)
Lemma mkdir_parents_through_file (cwd : list string) (now : Z) (anch : bool)
    (rparts : list string) (fs : FS) :
  path_resolve fs cwd (mkPath anch (rev rparts)) = Raise NotADirectoryError →
  mkdir_parents cwd now anch rparts fs = (Raise NotADirectoryError, fs).
Proof.
  intros Hres.
  assert (os_mkdir cwd now (mkPath anch (rev rparts)) fs
          = (Raise NotADirectoryError, fs)) as Hos.
  { unfold os_mkdir. by rewrite Hres. }
  assert (path_is_dir fs cwd (mkPath anch (rev rparts)) = false) as Hd.
  { unfold path_is_dir. by rewrite Hres. }
  destruct rparts; cbn [mkdir_parents]; by rewrite Hos, Hd.
Qed.


(** *** The path of an entry of a directory *)





(** With the empty name, [join] gives the directory itself. *)
Lemma Path_join_empty (sp : string) : Path (join sp "") = Path sp.
Proof.
  unfold join. cbn [startswith].
  destruct (String.eqb_spec sp "") as [->|Hsp]; [done|]. cbn [orb].
  destruct (endswith "/" sp); [by rewrite sapp_empty_r|].
  unfold Path. f_equal.
  - destruct sp; [done|]. by rewrite sapp_cons.
  - change ("/" +:+ "") with (String "/" ""). rewrite split_app_sep, List.filter_app.
    cbn. by rewrite app_nil_r.
Qed.



(** *** What the sweep does to one file *)



(** *** Sweeping twice *)










End FsFacts.

(* ===================================================================== *)
(** ** Properties of the source registry *)
(* ===================================================================== *)

Module RegistryFacts.
Import PyStr Registry PyStrFacts.

Lemma get_sources_sorted : get_sources = ["bing"; "epod"; "nasa"; "natgeo"; "wiki"].
Proof. vm_compute. reflexivity. Qed.

(** The pattern needs a non-empty group: the dispatcher [_fetch_wallpaper]
    is not taken for an adapter. *)
Lemma dispatcher_is_no_source : pattern_group "_fetch_wallpaper" = None.
Proof. reflexivity. Qed.

(** What the pattern [^_fetch_(\w+)_wallpaper$] matches, and its group. *)
Lemma pattern_group_Some (name g : string) :
  pattern_group name = Some g ↔
  name = "_fetch_" +:+ g +:+ "_wallpaper" ∧ g ≠ "" ∧ all_chars is_word g = true.
Proof.
  unfold pattern_group, strip_prefix, strip_suffix. split.
  - destruct (startswith "_fetch_" name) eqn:Hp; [|discriminate].
    destruct (endswith "_wallpaper" _) eqn:Hs; [|discriminate].
    destruct (negb (String.eqb _ "") && all_chars is_word _) eqn:Hc;
      [|discriminate].
    intros [= <-]. apply andb_true_iff in Hc as [Hne Hw].
    apply negb_true_iff, String.eqb_neq in Hne. split; [|done].
    apply startswith_inv in Hp. apply endswith_inv in Hs.
    rewrite Hp at 1. by rewrite Hs at 1.
  - intros (-> & Hne & Hw).
    rewrite startswith_app, sdrop_app, endswith_app, slength_app.
    replace (String.length g + String.length "_wallpaper" - String.length "_wallpaper")%nat
      with (String.length g) by lia.
    rewrite stake_app, Hw. by destruct (String.eqb_spec g "").
Qed.

(** C2. The registry returns exactly the names bing, natgeo, wiki, nasa
    and epod, each once; "any" is not among them, and the command line
    accepts the registry's names and "any" besides. *)
Theorem get_sources_names :
  (list_to_set get_sources : gset string)
    = {[ "bing"; "natgeo"; "wiki"; "nasa"; "epod" ]}
  ∧ NoDup get_sources
  ∧ ("any" ∉ get_sources)
  ∧ ("any" ∈ source_choices)
  ∧ (∀ s, s ∈ source_choices ↔ s ∈ get_sources ∨ s = "any").
Proof.
  unfold source_choices. rewrite get_sources_sorted.
  split; [set_solver|].
  split; [repeat (constructor; [set_solver|]); constructor|].
  split; [set_solver|].
  split; [set_solver|].
  intros s. set_solver.
Qed.

(** X1. The sources are the names whose method is there: a name is in the
    registry if and only if it is a non-empty word and the method name
    that the fetch step builds from it is a routine of the class. *)
Theorem get_sources_are_methods (s : string) :
  s ∈ get_sources ↔
  method_name s ∈ getmembers ∧ s ≠ "" ∧ all_chars is_word s = true.
Proof.
  unfold get_sources. rewrite list_elem_of_omap. split.
  - intros (name & Hin & (-> & Hne & Hw)%pattern_group_Some). by repeat split.
  - intros (Hin & Hne & Hw). exists (method_name s). split; [done|].
    by apply pattern_group_Some.
Qed.

End RegistryFacts.

(* ===================================================================== *)
(** ** Properties of the program *)
(* ===================================================================== *)

Module DdwFacts.
Import PyStr UrlLib Registry Fs Ddw PyStrFacts UrlFacts FsFacts RegistryFacts.

Lemma set_fs_same (w : World) : set_fs (fs w) w = w.
Proof. destruct w; reflexivity. Qed.

Section Facts.
Variable Soup : Type.
Variable BeautifulSoup : string → Soup.
Variable select_one : Soup → string → option Tag.
Variable soup_find : Soup → string → string * string → option Tag.
Variable http : nat → string → Result Response.
Variable bus_reply : list BusCall → BusCall → option Exception.
Variable netloc_accepted : string → bool.

Lemma requests_get_eq uri w :
  requests_get http uri w = (http (length (requests_log w)) uri, requested uri w).
Proof. reflexivity. Qed.

(** The document fetch in closed form. *)
Lemma soupify_eq uri w :
  _soupify BeautifulSoup http uri w =
  match http (length (requests_log w)) uri with
  | Ok r =>
      if status_code r =? 200
      then (Ok (BeautifulSoup (content r)), requested uri w)
      else (Raise (RuntimeError (pretty (status_code r) +:+ " error fetching IoD")),
            requested uri w)
  | Raise e => (Raise e, requested uri w)
  end.
Proof.
  unfold _soupify, bind. rewrite requests_get_eq.
  destruct (http _ uri) as [r|e]; [|reflexivity].
  destruct (status_code r =? 200); reflexivity.
Qed.

(** C7. Given a URL, the document fetch sends one GET and touches nothing
    else; when the GET yields a response, the fetch raises the fetch error
    (a RuntimeError that carries the status) if and only if the status is
    not 200, and on status 200 it returns the parsed body. *)
Theorem soupify_one_get (uri : string) (w : World) (r : Response) :
  http (length (requests_log w)) uri = Ok r →
  let out := _soupify BeautifulSoup http uri w in
  out.2 = requested uri w
  ∧ (out.1 = Raise (RuntimeError (pretty (status_code r) +:+ " error fetching IoD"))
     ↔ status_code r ≠ 200)
  ∧ (is_ok out.1 = false ↔ status_code r ≠ 200)
  ∧ (status_code r = 200 → out.1 = Ok (BeautifulSoup (content r))).
Proof.
  intros Hr. cbn zeta. rewrite soupify_eq, Hr.
  destruct (Z.eqb_spec (status_code r) 200) as [E|E]; cbn.
  - repeat split; try congruence; intros; try discriminate; contradiction.
  - repeat split; try congruence; intros; try discriminate; contradiction.
Qed.

Lemma dbus_set_eq which path w :
  _dbus_set bus_reply which path w =
  (match bus_reply (bus_log w) (mkCall which path appearance) with
   | None => Ok ()
   | Some e => Raise e
   end, called (mkCall which path appearance) w).
Proof.
  unfold _dbus_set. destruct (bus_reply _ _); reflexivity.
Qed.

(** C5. With selector "wallpaper" the apply step makes one Set call, for
    "background"; with "greeter" one, for "greeterbackground"; with "all"
    two, "background" first and "greeterbackground" after it has returned.
    The value of every call is the path as it was given. *)
Theorem set_wallpaper_calls (self : Self) (path : string) (w : World) :
  let w' := (_set_wallpaper bus_reply self path w).2 in
  let bg := mkCall "background" path appearance in
  let gr := mkCall "greeterbackground" path appearance in
  (_change self = "wallpaper" → bus_log w' = bus_log w ++ [bg])
  ∧ (_change self = "greeter" → bus_log w' = bus_log w ++ [gr])
  ∧ (_change self = "all" → bus_reply (bus_log w) bg = None →
     bus_log w' = bus_log w ++ [bg; gr])
  ∧ (_change self = "all" → bus_reply (bus_log w) bg ≠ None →
     bus_log w' = bus_log w ++ [bg]).
Proof.
  cbn zeta. unfold _set_wallpaper, bind.
  repeat split; intros Hc; rewrite Hc; cbn [String.eqb Ascii.eqb Bool.eqb orb];
    unfold ret; rewrite ?dbus_set_eq.
  - destruct (bus_reply _ _); reflexivity.
  - reflexivity.
  - intros ->. cbn. by rewrite <- app_assoc.
  - intros Hne. destruct (bus_reply _ _); [reflexivity | contradiction].
Qed.

(** *** The file name of a URL *)

Lemma create_filename_eq uri w :
  _create_filename netloc_accepted uri w =
  (match urlparse_path netloc_accepted uri with
   | Ok p => Ok (basename p)
   | Raise e => Raise e
   end, w).
Proof.
  unfold _create_filename, bind, lift, ret.
  by destruct (urlparse_path netloc_accepted uri).
Qed.

Lemma create_filename_Ok uri w f w' :
  _create_filename netloc_accepted uri w = (Ok f, w') →
  w' = w ∧ f = basename (url_path uri)
  ∧ netloc_ok netloc_accepted (netloc (urlsplit_parts uri)) = true.
Proof.
  rewrite create_filename_eq. unfold urlparse_path.
  destruct (netloc_ok _ _); [|discriminate]. by intros [= <- <-].
Qed.

(** A file name never holds a slash. *)
Lemma create_filename_no_slash uri w f w' :
  _create_filename netloc_accepted uri w = (Ok f, w') → has_char "/" f = false.
Proof.
  intros H. apply create_filename_Ok in H as (_ & -> & _).
  apply basename_no_slash.
Qed.


(** *** The download step *)

Lemma on_fs_read {A} (f : list string → FS → A) w :
  on_fs (λ cwd _ fs, (Ok (f cwd fs), fs)) w = (Ok (f (cwd w) (fs w)), w).
Proof. unfold on_fs. by rewrite set_fs_same. Qed.

Lemma download_image_hit self uri name w :
  cached self name w = true →
  _download_image http self uri name w = (Ok (output_path self name), w).
Proof.
  intros Hc. unfold _download_image, bind.
  rewrite (on_fs_read (λ c f, path_exists f c _)).
  fold (output_path self name). fold (cached self name w). by rewrite Hc.
Qed.

(** What the download step does when the file is not there yet. *)
Lemma download_image_miss self uri name w :
  cached self name w = false →
  _download_image http self uri name w =
  match http (length (requests_log w)) uri with
  | Raise e => (Raise e, requested uri w)
  | Ok r =>
      if status_code r =? 200 then
        (let* fd := on_fs (λ cwd now f, open_wb cwd now (output_path self name) f) in
         write_chunks fd (chunks (String.length (content r)) 128 (content r)) ;;;
         ret (output_path self name)) (requested uri w)
      else
        (Raise (RuntimeError (pretty (status_code r) +:+ " error downloading image")),
         requested uri w)
  end.
Proof.
  intros Hc. unfold _download_image at 1. unfold bind at 1.
  rewrite (on_fs_read (λ c f, path_exists f c _)).
  fold (output_path self name). fold (cached self name w). rewrite Hc.
  unfold bind at 1. rewrite requests_get_eq.
  destruct (http _ uri) as [r|e]; [|reflexivity].
  destruct (status_code r =? 200); reflexivity.
Qed.

(** A status other than 200 ends the download step with its error, right
    after the request. *)
Lemma download_image_refused self uri name w r :
  cached self name w = false →
  http (length (requests_log w)) uri = Ok r →
  status_code r ≠ 200 →
  _download_image http self uri name w =
    (Raise (RuntimeError (pretty (status_code r) +:+ " error downloading image")),
     requested uri w).
Proof.
  intros Hc Hr Hs. rewrite download_image_miss, Hr by done.
  apply Z.eqb_neq in Hs. by rewrite Hs.
Qed.

Lemma resolve_Path (f : FS) (c : list string) (p : string) (k : list string) :
  resolve f c p = Ok k → path_resolve f c (Path p) = Ok k.
Proof.
  unfold resolve, path_resolve, Path. destruct (String.eqb p ""); [discriminate|].
  apply walk_filter.
Qed.

Lemma write_chunks_eq (k : list string) (cs : list string) (w : World) :
  write_chunks k cs w =
  (Ok (), set_fs (foldl (λ f x, fd_write (clock w) k x f) (fs w) cs) w).
Proof.
  revert w. induction cs as [|c cs IH]; intros w; simpl.
  - unfold ret. by rewrite set_fs_same.
  - unfold bind, on_fs. rewrite IH. by destruct w.
Qed.

(** A download that finds no file and gets status 200 either fails to
    open the file and changes nothing, or stores the body in a new file. *)
Lemma download_image_new self uri name w r :
  cached self name w = false →
  http (length (requests_log w)) uri = Ok r →
  status_code r = 200 →
  (∃ k, resolve (fs w) (cwd w) (output_path self name) = Ok k
        ∧ fs w !! k = None ∧ k ≠ [] ∧ is_dir (fs w) (parent k) = true
        ∧ _download_image http self uri name w =
            (Ok (output_path self name), stored k (content r) (requested uri w)))
  ∨ (∃ e, _download_image http self uri name w = (Raise e, requested uri w)).
Proof.
  intros Hc Hr Hs. rewrite download_image_miss, Hr, Hs by done. cbn [Z.eqb Pos.eqb].
  unfold bind, on_fs. cbn [fs cwd clock requested].
  destruct (open_wb (cwd w) (clock w) (output_path self name) (fs w))
    as [[k|e] f1] eqn:Eo.
  - left. exists k. apply open_wb_Ok in Eo as [Hres Hk].
    assert (fs w !! k = None) as Hnone.
    { unfold cached, path_exists in Hc. rewrite (resolve_Path _ _ _ _ Hres) in Hc.
      apply bool_decide_eq_false in Hc. by apply eq_None_not_Some. }
    destruct Hk as [(c & m & Hf & _)|(_ & Hne & Hpar & ->)]; [congruence|].
    repeat (split; [done|]).
    rewrite write_chunks_eq. unfold ret, stored. cbn.
    rewrite (fd_write_all _ _ "").
    + rewrite joined_chunks by lia. rewrite sapp_nil_l.
      unfold touch. rewrite insert_alter_ne by (by apply not_eq_sym, parent_ne).
      by rewrite insert_insert_eq.
    + rewrite lookup_touch_ne by (by apply parent_ne).
      by rewrite lookup_insert_eq.
  - right. exists e. by apply open_wb_Raise in Eo as ->.
Qed.

(** The file that was stored is found by the next call. *)
Lemma stored_cached self name w k data :
  resolve (fs w) (cwd w) (output_path self name) = Ok k →
  fs w !! k = None →
  cached self name (stored k data w) = true.
Proof.
  intros Hres Hnone. unfold cached, path_exists, stored. cbn.
  apply resolve_Path in Hres. unfold path_resolve in *.
  erewrite walk_mono; [| |exact Hres].
  - apply bool_decide_eq_true. apply not_eq_None_Some.
    rewrite lookup_touch_None. by rewrite lookup_insert_eq.
  - intros j Hj. rewrite is_dir_touch. by apply is_dir_insert_fresh.
Qed.


(** C4. When the file is not cached and the GET of the download step
    returns a status other than 200, the step raises the download error
    (a RuntimeError that carries the status) and the file system is as it
    was: nothing is created, not even an empty file at the target path,
    which is still missing afterwards; the request is all that has
    happened. *)
Theorem download_image_bad_status self uri name w r :
  cached self name w = false →
  http (length (requests_log w)) uri = Ok r →
  status_code r ≠ 200 →
  let out := _download_image http self uri name w in
  out.1 = Raise (RuntimeError (pretty (status_code r) +:+ " error downloading image"))
  ∧ fs out.2 = fs w
  ∧ cached self name out.2 = false
  ∧ out.2 = requested uri w.
Proof.
  intros Hc Hr Hs out. unfold out.
  rewrite (download_image_refused self uri name w r Hc Hr Hs).
  repeat split. exact Hc.
Qed.

(** C1. When a file exists at the computed path, the download step makes
    no request, changes nothing and returns that path; whatever path a
    call returns is the computed one, and a call that follows a successful
    one, with any URL, returns the same path without a request or a
    change. *)
Theorem download_image_idempotent self uri name w :
  (cached self name w = true →
   _download_image http self uri name w = (Ok (output_path self name), w))
  ∧ (∀ p w1,
       _download_image http self uri name w = (Ok p, w1) →
       p = output_path self name
       ∧ cached self name w1 = true
       ∧ ∀ uri', _download_image http self uri' name w1 = (Ok p, w1)).
Proof.
  split; [apply download_image_hit|].
  intros p w1 Hrun.
  assert (p = output_path self name ∧ cached self name w1 = true) as [-> Hc1].
  { destruct (cached self name w) eqn:Hc.
    - rewrite download_image_hit in Hrun by done. by injection Hrun as <- <-.
    - destruct (http (length (requests_log w)) uri) as [r|e] eqn:Hr.
      + destruct (Z.eqb_spec (status_code r) 200) as [Hs|Hs].
        * destruct (download_image_new self uri name w r Hc Hr Hs)
            as [(k & Hres & Hnone & _ & _ & Hrun')|(e & Hrun')];
            rewrite Hrun' in Hrun; [|discriminate].
          injection Hrun as <- <-. split; [done|].
          by apply (stored_cached self name (requested uri w)).
        * pose proof (download_image_refused self uri name w r Hc Hr Hs) as Hrun'.
          rewrite Hrun' in Hrun. discriminate.
      + rewrite download_image_miss, Hr in Hrun by done. discriminate. }
  repeat split; [done|]. intros uri'. by apply download_image_hit.
Qed.

(** *** The source adapters *)

Lemma soupify_fetched page w doc :
  fetched BeautifulSoup http page w doc →
  _soupify BeautifulSoup http page w = (Ok doc, requested page w).
Proof.
  intros (r & Hr & Hs & ->). rewrite soupify_eq, Hr, Hs. reflexivity.
Qed.

(** The file name of a URL with a plain host is always there. *)
Lemma create_filename_host s h X w :
  first_is is_ascii_alpha s = true →
  all_chars is_scheme_char s = true →
  all_chars host_char h = true →
  plain_netloc h = true →
  _create_filename netloc_accepted (s +:+ "://" +:+ h +:+ "/" +:+ X) w =
  (Ok (basename (url_path (s +:+ "://" +:+ h +:+ "/" +:+ X))), w).
Proof.
  intros H1 H2 H3 H4. rewrite create_filename_eq. unfold urlparse_path.
  rewrite netloc_host by done. unfold netloc_ok. by rewrite H4.
Qed.

Lemma create_filename_fst uri w name :
  (_create_filename netloc_accepted uri w).1 = Ok name →
  _create_filename netloc_accepted uri w = (Ok name, w).
Proof.
  rewrite create_filename_eq. cbn [fst]. by intros ->.
Qed.

Ltac adapter_start Hdoc :=
  unfold _fetch_bing_wallpaper, _fetch_natgeo_wallpaper, _fetch_wiki_wallpaper,
    _fetch_nasa_wallpaper, _fetch_epod_wallpaper;
  unfold bind at 1; rewrite (soupify_fetched _ _ _ Hdoc); cbv beta iota.


Lemma fetch_nasa_spec self w doc :
  fetched BeautifulSoup http nasa_page w doc →
  (select_one doc nasa_selector = None →
   _fetch_nasa_wallpaper BeautifulSoup select_one http netloc_accepted self w
   = not_found nasa_page w)
  ∧ (∀ image href,
       select_one doc nasa_selector = Some image →
       getitem image "href" = Ok href →
       _fetch_nasa_wallpaper BeautifulSoup select_one http netloc_accepted self w
       = _download_image http self
           ("https://apod.nasa.gov/apod/" +:+ href)
           (basename (url_path ("https://apod.nasa.gov/apod/" +:+ href)))
           (requested nasa_page w)).
Proof.
  intros Hdoc. split.
  - intros Hs. adapter_start Hdoc. by rewrite Hs.
  - intros image href Hs Hh. adapter_start Hdoc. rewrite Hs.
    unfold bind, lift. rewrite Hh.
    change ("https://apod.nasa.gov/apod/" +:+ href)
      with ("https" +:+ "://" +:+ "apod.nasa.gov" +:+ "/" +:+ ("apod/" +:+ href)).
    by rewrite create_filename_host.
Qed.

Lemma fetch_epod_spec self w doc :
  fetched BeautifulSoup http epod_page w doc →
  (select_one doc "a.asset-img-link" = None →
   _fetch_epod_wallpaper BeautifulSoup select_one http netloc_accepted self w
   = not_found epod_page w)
  ∧ (∀ image uri name,
       select_one doc "a.asset-img-link" = Some image →
       getitem image "href" = Ok uri →
       (_create_filename netloc_accepted (uri +:+ ".jpg") (requested epod_page w)).1
         = Ok name →
       _fetch_epod_wallpaper BeautifulSoup select_one http netloc_accepted self w
       = _download_image http self uri name (requested epod_page w)).
Proof.
  intros Hdoc. split.
  - intros Hs. adapter_start Hdoc. by rewrite Hs.
  - intros image uri name Hs Hh Hn. adapter_start Hdoc. rewrite Hs.
    unfold bind, lift. rewrite Hh.
    by rewrite (create_filename_fst _ _ _ Hn).
Qed.



(** *** The storage directory *)

Lemma startswith_slash_name (name : string) :
  has_char "/" name = false → startswith "/" name = false.
Proof.
  destruct name as [|c r]; [done|]. cbn [has_char startswith].
  destruct (Ascii.eqb_spec c "/") as [->|Hc]; [discriminate|].
  intros _. by destruct (Ascii.eqb_spec "/" c) as [<-|].
Qed.

(** The path of an image resolves through the storage directory: to the
    directory itself, its parent, or an entry of it. *)
Lemma resolve_join (f : FS) (c : list string) (sp name : string) (k : list string) :
  has_char "/" name = false →
  resolve f c (join sp name) = Ok k →
  ∃ d, path_resolve f c (Path sp) = Ok d ∧ is_dir f d = true ∧ k = step d name.
Proof.
  intros Hname. unfold join. rewrite (startswith_slash_name _ Hname).
  destruct (String.eqb_spec sp "") as [->|Hsp].
  - cbn [orb]. rewrite sapp_nil_l. unfold resolve.
    destruct (String.eqb name ""); [discriminate|].
    rewrite (startswith_slash_name _ Hname), (split_no_sep _ _ Hname).
    intros Hw. apply (walk_snoc f _ []) in Hw as (d & [= <-] & Hd & ->).
    by exists (origin c false).
  - assert (∃ sp0, (if false || endswith "/" sp then sp +:+ name
                    else sp +:+ "/" +:+ name) = sp0 +:+ String "/" name
                   ∧ List.filter proper_part (split "/" sp)
                     = List.filter proper_part (split "/" sp0)
                   ∧ startswith "/" (sp0 +:+ String "/" name) = startswith "/" sp)
      as (sp0 & -> & Hparts & Hanch).
    { cbn [orb]. destruct (endswith "/" sp) eqn:He.
      - apply endswith_slash in He as [sp0 ->]. exists sp0.
        split; [by rewrite sapp_assoc|]. split.
        + rewrite split_app_sep, List.filter_app. cbn. by rewrite app_nil_r.
        + by destruct sp0.
      - exists sp. split; [done|]. split; [done|].
        destruct sp; [done|]. by rewrite sapp_cons. }
    unfold resolve, path_resolve, Path. cbn [anchored parts].
    assert (String.eqb (sp0 +:+ String "/" name) "" = false) as ->
      by (by destruct sp0).
    rewrite Hanch, split_app_sep, (split_no_sep _ _ Hname), Hparts.
    intros (d & Hd & Hdir & ->)%walk_snoc.
    exists d. split; [by apply walk_filter|done].
Qed.

Lemma init_eq source change clean sp w :
  __init__ source change clean sp w =
  match mkdir_p (cwd w) (clock w) (Path sp) (fs w) with
  | (Ok _, f) => (Ok (mkSelf source change clean sp), set_fs f w)
  | (Raise e, f) => (Raise e, set_fs f w)
  end.
Proof.
  unfold __init__, bind, on_fs, ret.
  by destruct (mkdir_p _ _ _ _) as [[[]|e] f].
Qed.

Lemma parts_Path_plain (sp : string) :
  Forall (λ c, c ≠ "..") (parts (Path sp)) →
  Forall (λ c, plain_part c = true) (rev (parts (Path sp))).
Proof.
  intros H. apply Forall_rev. apply Forall_forall. intros c Hc.
  unfold plain_part. apply andb_true_iff. split.
  - apply list_elem_of_In in Hc. by apply filter_In in Hc as [_ ?].
  - rewrite Forall_forall in H. specialize (H c Hc).
    apply negb_true_iff. by apply String.eqb_neq.
Qed.

(** C6. Construction leaves the storage directory in place: whenever it
    returns, the configured path is a directory, and it does return, having
    made the directory and every missing parent, when the path leads down
    from an existing directory with no regular file on the way.  After
    that, a call of the download step with a file name made by
    [_create_filename] changes the file system at most by one new file
    that is an entry of the storage directory (whose modification time is
    set). *)
Theorem storage_directory_invariant :
  (∀ source change clean sp w self w',
     __init__ source change clean sp w = (Ok self, w') →
     _storage_path self = sp ∧ path_is_dir (fs w') (cwd w') (Path sp) = true)
  ∧ (∀ source change clean sp w,
       let o := origin (cwd w) (anchored (Path sp)) in
       Forall (λ c, c ≠ "..") (parts (Path sp)) →
       is_dir (fs w) o = true →
       no_file_on (fs w) o (parts (Path sp)) →
       ∃ self w', __init__ source change clean sp w = (Ok self, w')
                  ∧ made (fs w) (fs w') (o ++ parts (Path sp)))
  ∧ (∀ self uri u name w0 w out w',
       wf_fs (fs w) →
       (_create_filename netloc_accepted u w0).1 = Ok name →
       _download_image http self uri name w = (out, w') →
       fs w' = fs w
       ∨ ∃ d data,
           path_resolve (fs w) (cwd w) (Path (_storage_path self)) = Ok d
           ∧ is_dir (fs w) d = true
           ∧ fs w !! (d ++ [name]) = None
           ∧ fs w' = touch (clock w) d (<[d ++ [name] := File data (clock w)]> (fs w))).
Proof.
  split; [|split].
  - intros source change clean sp w self w'. rewrite init_eq.
    destruct (mkdir_p _ _ _ _) as [[[]|e] f] eqn:E; [|discriminate].
    intros [= <- <-]. split; [done|]. cbn.
    apply mkdir_parents_is_dir in E. by rewrite rev_involutive in E.
  - intros source change clean sp w o Hdots Ho Hnf. rewrite init_eq.
    unfold mkdir_p.
    destruct (mkdir_parents_plain (cwd w) (clock w) (anchored (Path sp))
                (rev (parts (Path sp))) (fs w)) as (f & -> & Hmade & _).
    + by apply parts_Path_plain.
    + done.
    + by rewrite rev_involutive.
    + eexists _, _. split; [done|]. cbn. by rewrite rev_involutive in Hmade.
  - intros self uri u name w0 w out w' Hwf Hname Hrun.
    apply create_filename_fst, create_filename_no_slash in Hname.
    destruct (cached self name w) eqn:Hc.
    { rewrite download_image_hit in Hrun by done. left. by injection Hrun as _ <-. }
    destruct (http (length (requests_log w)) uri) as [r|e] eqn:Hr.
    2:{ rewrite download_image_miss, Hr in Hrun by done. left.
        by injection Hrun as _ <-. }
    destruct (Z.eqb_spec (status_code r) 200) as [Hs|Hs].
    2:{ pose proof (download_image_refused self uri name w r Hc Hr Hs) as Hrun'.
        rewrite Hrun' in Hrun. left. by injection Hrun as _ <-. }
    destruct (download_image_new self uri name w r Hc Hr Hs)
      as [(k & Hres & Hnone & Hne & Hpar & Hrun')|(e & Hrun')];
      rewrite Hrun' in Hrun; injection Hrun as _ <-; [|by left].
    right. apply resolve_join in Hres as (d & Hd & Hdir & ->); [|done].
    assert (step d name = d ++ [name]) as Hstep.
    { unfold step in *.
      destruct (String.eqb name "" || String.eqb name ".").
      - apply is_dir_Some in Hdir as [m Hm]. congruence.
      - destruct (String.eqb name ".."); [|done].
        apply is_dir_Some in Hdir as [m Hm].
        destruct Hwf as [_ Hwf]. apply Hwf, is_dir_Some in Hm as [m' Hm'].
        congruence. }
    rewrite Hstep in *. exists d, (content r).
    repeat (split; [done|]). cbn. by rewrite parent_snoc.
Qed.

(** *** Cleaning up *)




(** *** Every step keeps the file system well-formed *)

Lemma keeps_ret {A} (a : A) : keeps_wf (ret a).
Proof. by intros w r w' [= _ <-]. Qed.

Lemma keeps_raise {A} (e : Exception) : keeps_wf (@raise A e).
Proof. by intros w r w' [= _ <-]. Qed.

Lemma keeps_lift {A} (x : Result A) : keeps_wf (lift x).
Proof. by intros w r w' [= _ <-]. Qed.

Lemma keeps_bind {A B} (m : M A) (k : A → M B) :
  keeps_wf m → (∀ a, keeps_wf (k a)) → keeps_wf (bind m k).
Proof.
  intros Hm Hk w r w'. unfold bind.
  destruct (m w) as [[a|e] w1] eqn:E.
  - intros Hrun Hwf. apply (Hk a w1 r w' Hrun). by apply (Hm w _ _ E).
  - intros [= _ <-]. by apply (Hm w _ _ E).
Qed.

Lemma keeps_on_fs {A} (op : list string → Z → FS → Result A * FS) :
  (∀ c now f r f', op c now f = (r, f') → wf_fs f → wf_fs f') →
  keeps_wf (on_fs op).
Proof.
  intros Hop w r w'. unfold on_fs.
  destruct (op (cwd w) (clock w) (fs w)) as [r1 f1] eqn:E.
  intros [= _ <-]. cbn. by apply (Hop _ _ _ _ _ E).
Qed.

Lemma keeps_requests_get uri : keeps_wf (requests_get http uri).
Proof. by intros w r w' [= _ <-]. Qed.

Lemma keeps_dbus_set which path : keeps_wf (_dbus_set bus_reply which path).
Proof.
  intros w r w'. rewrite dbus_set_eq. by intros [= _ <-].
Qed.

Lemma keeps_random_choice seq : keeps_wf (random_choice seq).
Proof.
  intros w r w'. unfold random_choice.
  by destruct (seq !! _); intros [= _ <-].
Qed.

Lemma keeps_image_not_found {A} : keeps_wf (@image_not_found A).
Proof. apply keeps_raise. Qed.

Lemma keeps_write_chunks k cs : keeps_wf (write_chunks k cs).
Proof.
  induction cs as [|c cs IH]; cbn [write_chunks]; [apply keeps_ret|].
  apply keeps_bind; [|done]. apply keeps_on_fs.
  intros ? ? ? ? ? [= _ <-]. apply wf_fd_write.
Qed.

Create HintDb keeps.

#[local] Hint Resolve keeps_ret keeps_raise keeps_lift keeps_requests_get
  keeps_dbus_set keeps_random_choice keeps_image_not_found
  keeps_write_chunks : keeps.

(** Taking a computation apart along its binds, branches and matches. *)
Ltac keeps :=
  repeat first
    [ progress auto with keeps
    | apply keeps_bind; [|intros ?]
    | match goal with
      | |- keeps_wf (if ?b then _ else _) => destruct b
      | |- keeps_wf (match ?x with _ => _ end) => destruct x
      end ].

Lemma keeps_soupify uri : keeps_wf (_soupify BeautifulSoup http uri).
Proof. unfold _soupify. keeps. Qed.

Lemma keeps_create_filename uri : keeps_wf (_create_filename netloc_accepted uri).
Proof. unfold _create_filename. keeps. Qed.

Lemma keeps_download_image self uri name : keeps_wf (_download_image http self uri name).
Proof.
  unfold _download_image. keeps.
  - apply keeps_on_fs. by intros ? ? ? ? ? [= _ <-].
  - apply keeps_on_fs. intros c now f r f' Ho. by apply (wf_open_wb _ _ _ _ _ _ Ho).
Qed.

#[local] Hint Resolve keeps_soupify keeps_create_filename keeps_download_image : keeps.

Lemma keeps_fetch_method self source :
  keeps_wf (fetch_method BeautifulSoup select_one soup_find http netloc_accepted
              self source).
Proof.
  unfold fetch_method, _fetch_bing_wallpaper, _fetch_natgeo_wallpaper,
    _fetch_wiki_wallpaper, _fetch_nasa_wallpaper, _fetch_epod_wallpaper.
  keeps.
Qed.

Lemma keeps_set_wallpaper self path : keeps_wf (_set_wallpaper bus_reply self path).
Proof. unfold _set_wallpaper. keeps. Qed.

Lemma keeps_init source change clean sp : keeps_wf (__init__ source change clean sp).
Proof.
  unfold __init__. keeps. apply keeps_on_fs.
  intros c now f r f' Hm. by apply (wf_mkdir_parents _ _ _ _ _ _ _ Hm).
Qed.

Lemma keeps_clean_up self : keeps_wf (clean_up self).
Proof.
  unfold clean_up. keeps. apply keeps_on_fs.
  intros c now f r f' [= _ <-]. apply wf_find_mtime_delete.
Qed.

(** The session of the main block: construction, [run], [clean_up].  A
    file system that is well-formed at the start is well-formed at every
    point after. *)
Theorem session_keeps_wf source change clean sp :
  keeps_wf
    (let* ddw := __init__ source change clean sp in
     run BeautifulSoup select_one soup_find http bus_reply netloc_accepted ddw ;;;
     clean_up ddw).
Proof.
  apply keeps_bind; [apply keeps_init|]. intros ddw.
  apply keeps_bind; [|intros _; apply keeps_clean_up].
  unfold run, _fetch_wallpaper.
  apply keeps_bind; [|intros path; apply keeps_set_wallpaper].
  apply keeps_bind; [|intros src; apply keeps_fetch_method].
  keeps.
Qed.



(** *** What a computation leaves as it was *)

#[local] Instance nothing_lost_preorder : PreOrder nothing_lost.
Proof.
  split.
  - by intros w.
  - intros w1 w2 w3 (F1 & D1 & C1 & T1) (F2 & D2 & C2 & T2).
    split; [|split; [|split]]; try congruence.
    + intros k c m Hk. by apply F2, F1.
    + intros k Hk. by apply D2, D1.
Qed.

#[local] Instance bus_quiet_preorder : PreOrder bus_quiet.
Proof.
  split; [by intros w|]. unfold bus_quiet. intros w1 w2 w3. congruence.
Qed.

#[local] Instance only_bus_preorder : PreOrder only_bus.
Proof.
  split; [by intros w|].
  intros w1 w2 w3 (? & ? & ? & ?) (? & ? & ? & ?).
  repeat split; congruence.
Qed.

Lemma only_bus_nothing_lost (w w' : World) : only_bus w w' → nothing_lost w w'.
Proof.
  intros (Hf & Hc & Ht & _). unfold nothing_lost. rewrite Hf.
  by repeat split.
Qed.

Section Frame.
Context (R : relation World) `{!PreOrder R}.

Lemma preserves_ret {A} (a : A) : preserves R (ret a).
Proof. by intros w r w' [= _ <-]. Qed.

Lemma preserves_raise {A} (e : Exception) : preserves R (@raise A e).
Proof. by intros w r w' [= _ <-]. Qed.

Lemma preserves_lift {A} (x : Result A) : preserves R (lift x).
Proof. by intros w r w' [= _ <-]. Qed.

Lemma preserves_bind {A B} (m : M A) (k : A → M B) :
  preserves R m → (∀ a, preserves R (k a)) → preserves R (bind m k).
Proof.
  intros Hm Hk w r w'. unfold bind.
  destruct (m w) as [[a|e] w1] eqn:E.
  - intros Hrun. transitivity w1; [by apply (Hm w _ _ E) | by apply (Hk a w1 r w')].
  - intros [= _ <-]. by apply (Hm w _ _ E).
Qed.

Lemma preserves_image_not_found {A} : preserves R (@image_not_found A).
Proof. apply preserves_raise. Qed.

Lemma preserves_random_choice seq : preserves R (random_choice seq).
Proof.
  intros w r w'. unfold random_choice.
  by destruct (seq !! _); intros [= _ <-].
Qed.

Lemma preserves_create_filename uri :
  preserves R (_create_filename netloc_accepted uri).
Proof.
  intros w r w'. rewrite create_filename_eq. by intros [= _ <-].
Qed.

End Frame.

Lemma preserves_weaken {A} (R R' : relation World) (m : M A) :
  (∀ w w', R w w' → R' w w') → preserves R m → preserves R' m.
Proof. intros Hsub Hm w r w' Hrun. by apply Hsub, (Hm w r w'). Qed.

(** A request changes the log of requests and nothing else. *)
Lemma requested_nothing_lost uri w : nothing_lost w (requested uri w).
Proof. by repeat split. Qed.

Lemma nothing_lost_stored (k : list string) (data : string) (w : World) :
  fs w !! k = None → nothing_lost w (stored k data w).
Proof.
  intros Hk. unfold stored. split; [|split; [|done]]; cbn.
  - intros j c m Hj. rewrite lookup_touch_file.
    rewrite lookup_insert_ne; [done|]. intros ->. congruence.
  - intros j Hj. rewrite is_dir_touch. by apply is_dir_insert_fresh.
Qed.

Lemma nothing_lost_requests_get uri : preserves nothing_lost (requests_get http uri).
Proof. intros w r w' [= _ <-]. apply requested_nothing_lost. Qed.

Lemma bus_quiet_requests_get uri : preserves bus_quiet (requests_get http uri).
Proof. by intros w r w' [= _ <-]. Qed.

Lemma nothing_lost_soupify uri : preserves nothing_lost (_soupify BeautifulSoup http uri).
Proof.
  intros w r w'. rewrite soupify_eq.
  destruct (http _ uri) as [x|e]; [destruct (status_code x =? 200)|];
    intros [= _ <-]; apply requested_nothing_lost.
Qed.

Lemma bus_quiet_soupify uri : preserves bus_quiet (_soupify BeautifulSoup http uri).
Proof.
  intros w r w'. rewrite soupify_eq.
  by destruct (http _ uri) as [x|e]; [destruct (status_code x =? 200)|];
    intros [= _ <-].
Qed.

(** The outcomes of the download step, one by one. *)
Lemma download_image_cases self uri name w :
  (cached self name w = true
   ∧ _download_image http self uri name w = (Ok (output_path self name), w))
  ∨ (cached self name w = false
     ∧ ∃ e, _download_image http self uri name w = (Raise e, requested uri w))
  ∨ (cached self name w = false
     ∧ ∃ r k, http (length (requests_log w)) uri = Ok r ∧ status_code r = 200
        ∧ resolve (fs w) (cwd w) (output_path self name) = Ok k
        ∧ fs w !! k = None ∧ k ≠ [] ∧ is_dir (fs w) (parent k) = true
        ∧ _download_image http self uri name w =
            (Ok (output_path self name), stored k (content r) (requested uri w))).
Proof.
  destruct (cached self name w) eqn:Hc.
  { left. split; [done|]. by apply download_image_hit. }
  right. destruct (http (length (requests_log w)) uri) as [r|e] eqn:Hr.
  2:{ left. split; [done|]. exists e. by rewrite download_image_miss, Hr. }
  destruct (Z.eqb_spec (status_code r) 200) as [Hs|Hs].
  2:{ left. split; [done|]. eexists. by apply download_image_refused. }
  destruct (download_image_new self uri name w r Hc Hr Hs)
    as [(k & Hres & Hnone & Hne & Hpar & Hrun)|(e & Hrun)].
  - right. split; [done|]. by exists r, k.
  - left. split; [done|]. by exists e.
Qed.

Lemma nothing_lost_download_image self uri name :
  preserves nothing_lost (_download_image http self uri name).
Proof.
  intros w r w' Hrun.
  destruct (download_image_cases self uri name w)
    as [[_ H]|[[_ [e H]]|[_ (x & k & _ & _ & _ & Hk & _ & _ & H)]]];
    rewrite H in Hrun; injection Hrun as _ <-.
  - done.
  - apply requested_nothing_lost.
  - by apply (nothing_lost_stored k (content x) (requested uri w)).
Qed.

Lemma bus_quiet_download_image self uri name :
  preserves bus_quiet (_download_image http self uri name).
Proof.
  intros w r w' Hrun.
  destruct (download_image_cases self uri name w)
    as [[_ H]|[[_ [e H]]|[_ (x & k & _ & _ & _ & Hk & _ & _ & H)]]];
    rewrite H in Hrun; by injection Hrun as _ <-.
Qed.

Create HintDb frame.

#[local] Hint Resolve preserves_ret preserves_raise preserves_lift
  preserves_image_not_found preserves_random_choice preserves_create_filename
  nothing_lost_soupify bus_quiet_soupify nothing_lost_download_image
  bus_quiet_download_image nothing_lost_preorder bus_quiet_preorder
  only_bus_preorder : frame.

(** Taking a computation apart along its binds, branches and matches. *)
Ltac frame :=
  repeat first
    [ progress (eauto with frame typeclass_instances)
    | apply preserves_bind; [apply _| |intros ?]
    | match goal with
      | |- preserves _ (if ?b then _ else _) => destruct b
      | |- preserves _ (match ?x with _ => _ end) => destruct x
      end ].

Lemma nothing_lost_fetch_wallpaper self :
  preserves nothing_lost
    (_fetch_wallpaper BeautifulSoup select_one soup_find http netloc_accepted self).
Proof.
  unfold _fetch_wallpaper, fetch_method, _fetch_bing_wallpaper,
    _fetch_natgeo_wallpaper, _fetch_wiki_wallpaper, _fetch_nasa_wallpaper,
    _fetch_epod_wallpaper.
  frame.
Qed.

Lemma bus_quiet_fetch_wallpaper self :
  preserves bus_quiet
    (_fetch_wallpaper BeautifulSoup select_one soup_find http netloc_accepted self).
Proof.
  unfold _fetch_wallpaper, fetch_method, _fetch_bing_wallpaper,
    _fetch_natgeo_wallpaper, _fetch_wiki_wallpaper, _fetch_nasa_wallpaper,
    _fetch_epod_wallpaper.
  frame.
Qed.

Lemma only_bus_dbus_set which path : preserves only_bus (_dbus_set bus_reply which path).
Proof. intros w r w'. rewrite dbus_set_eq. by intros [= _ <-]. Qed.

Lemma only_bus_set_wallpaper self path :
  preserves only_bus (_set_wallpaper bus_reply self path).
Proof.
  unfold _set_wallpaper.
  apply preserves_bind; [apply _| |intros _];
    (destruct (_ || _); [apply only_bus_dbus_set | apply preserves_ret, _]).
Qed.

Lemma nothing_lost_run self :
  preserves nothing_lost
    (run BeautifulSoup select_one soup_find http bus_reply netloc_accepted self).
Proof.
  unfold run. apply preserves_bind; [apply _| |intros path].
  - apply nothing_lost_fetch_wallpaper.
  - apply (preserves_weaken only_bus); [apply only_bus_nothing_lost|].
    apply only_bus_set_wallpaper.
Qed.


(** *** What a computation returns *)

Lemma returns_bind {A B} (Q : B → World → Prop) (m : M A) (k : A → M B) :
  (∀ a, returns Q (k a)) → returns Q (bind m k).
Proof.
  intros Hk w b w'. unfold bind. destruct (m w) as [[a|e] w1]; [|discriminate].
  apply Hk.
Qed.

Lemma returns_raise {A} (Q : A → World → Prop) e : returns Q (raise e).
Proof. intros w a w'. discriminate. Qed.

(** A path that the download step returns is the computed one, and it
    exists. *)
Lemma download_image_returns self uri name :
  returns (λ p w', p = output_path self name ∧ cached self name w' = true)
    (_download_image http self uri name).
Proof.
  intros w p w' Hrun.
  destruct (download_image_cases self uri name w)
    as [[Hc H]|[[_ [e H]]|[_ (x & k & _ & _ & Hres & Hk & _ & _ & H)]]];
    rewrite H in Hrun; [|discriminate|]; injection Hrun as <- <-.
  - done.
  - split; [done|]. by apply (stored_cached self name (requested uri w)).
Qed.

Lemma fetch_method_returns self source :
  returns (λ p w', ∃ name, p = output_path self name ∧ cached self name w' = true)
    (fetch_method BeautifulSoup select_one soup_find http netloc_accepted self source).
Proof.
  assert (∀ uri name,
    returns (λ p w', ∃ name, p = output_path self name ∧ cached self name w' = true)
      (_download_image http self uri name)) as Hd.
  { intros uri name w p w' Hrun. exists name.
    by apply (download_image_returns self uri name w). }
  unfold fetch_method, _fetch_bing_wallpaper, _fetch_natgeo_wallpaper,
    _fetch_wiki_wallpaper, _fetch_nasa_wallpaper, _fetch_epod_wallpaper,
    image_not_found.
  repeat first
    [ apply Hd | apply returns_raise
    | apply returns_bind; intros ?
    | match goal with
      | |- returns _ (if ?b then _ else _) => destruct b
      | |- returns _ (match ?x with _ => _ end) => destruct x
      end ].
Qed.

Lemma fetch_wallpaper_returns self :
  returns (λ p w', ∃ name, p = output_path self name ∧ cached self name w' = true)
    (_fetch_wallpaper BeautifulSoup select_one soup_find http netloc_accepted self).
Proof.
  unfold _fetch_wallpaper. apply returns_bind. intros s. apply fetch_method_returns.
Qed.

(** *** The dispatch on the source *)

Lemma fetch_method_adapter self s :
  s ∈ get_sources →
  ∃ m, (s, m) ∈ adapters BeautifulSoup select_one soup_find http netloc_accepted self
       ∧ fetch_method BeautifulSoup select_one soup_find http netloc_accepted self s = m.
Proof.
  rewrite get_sources_sorted. unfold adapters, fetch_method.
  intros Hs. repeat (apply elem_of_cons in Hs as [->|Hs]);
    [..|by apply elem_of_nil in Hs]; eexists; (split; [|reflexivity]); set_solver.
Qed.

Lemma random_choice_sources w :
  ∃ s, s ∈ get_sources ∧ random_choice get_sources w = (Ok s, w).
Proof.
  unfold random_choice. rewrite get_sources_sorted.
  assert (entropy w mod 5 < 5)%nat as Hlt by (apply Nat.mod_upper_bound; lia).
  cbn [length]. destruct (entropy w mod 5)%nat as [|[|[|[|[|n]]]]]; [..|lia];
    eexists; (split; [|reflexivity]); set_solver.
Qed.

(** X2. With a source of the command line's choices, the fetch step runs
    one of the five adapters: the one of the configured source, or, for
    "any", one that is taken from the registry.  No attribute lookup
    fails. *)
Theorem fetch_wallpaper_runs_an_adapter (self : Self) (w : World) :
  _source self ∈ source_choices →
  ∃ s m,
    s ∈ get_sources
    ∧ (s, m) ∈ adapters BeautifulSoup select_one soup_find http netloc_accepted self
    ∧ (_source self ≠ "any" → s = _source self)
    ∧ _fetch_wallpaper BeautifulSoup select_one soup_find http netloc_accepted self w
      = m w.
Proof.
  unfold source_choices. intros [Hs|Hany]%elem_of_app.
  - destruct (fetch_method_adapter self _ Hs) as (m & Hm & Hrun).
    exists (_source self), m. repeat (split; [done|]).
    unfold _fetch_wallpaper, bind.
    assert (String.eqb (_source self) "any" = false) as ->.
    { apply String.eqb_neq. intros E. rewrite E, get_sources_sorted in Hs.
      set_solver. }
    unfold ret. by rewrite Hrun.
  - apply list_elem_of_singleton in Hany.
    destruct (random_choice_sources w) as (s & Hs & Hc).
    destruct (fetch_method_adapter self s Hs) as (m & Hm & Hrun).
    exists s, m. split; [done|]. split; [done|]. split; [by intros []|].
    unfold _fetch_wallpaper, bind. rewrite Hany. cbn [String.eqb Ascii.eqb Bool.eqb].
    by rewrite Hc, Hrun.
Qed.

(** X3. With any other source, the lookup of the method fails: the fetch
    step raises the AttributeError for the method name it has built, and
    nothing has happened. *)
Theorem fetch_wallpaper_unknown_source (self : Self) (w : World) :
  _source self ∉ source_choices →
  _fetch_wallpaper BeautifulSoup select_one soup_find http netloc_accepted self w
  = (Raise (AttributeError (method_name (_source self))), w).
Proof.
  unfold source_choices. rewrite get_sources_sorted. intros Hs.
  unfold _fetch_wallpaper, bind, fetch_method.
  destruct (String.eqb_spec (_source self) "any") as [E|_];
    [rewrite E in Hs; set_solver|].
  unfold ret.
  repeat (match goal with
          | |- context [String.eqb (_source self) ?x] =>
              destruct (String.eqb_spec (_source self) x) as [E|_];
                [rewrite E in Hs; set_solver|]
          end).
  reflexivity.
Qed.

(** *** The run *)

(** The calls of the apply step: what it adds to the log of the bus. *)
Lemma set_wallpaper_log self path w :
  ∃ l, bus_log (_set_wallpaper bus_reply self path w).2 = bus_log w ++ l
       ∧ ∀ c, c ∈ l →
           c = mkCall "background" path appearance
           ∨ c = mkCall "greeterbackground" path appearance.
Proof.
  unfold _set_wallpaper, bind.
  destruct (_ || _); destruct (_ || _); unfold ret; rewrite ?dbus_set_eq;
    repeat (match goal with
            | |- context [bus_reply ?l ?c] => destruct (bus_reply l c)
            end; rewrite ?dbus_set_eq); cbn [snd bus_log called];
    rewrite <- ?app_assoc;
    try (eexists; split; [reflexivity|]; set_solver).
  all: exists []; rewrite app_nil_r; split; [done|set_solver].
Qed.

Lemma cached_only_bus self name w w' :
  only_bus w w' → cached self name w' = cached self name w.
Proof. intros (Hf & Hc & _). unfold cached. by rewrite Hf, Hc. Qed.

(** X4. Every call that the run makes on the bus goes to the appearance
    interface, sets the background or the greeter background, and names
    a path that the fetch step returned and that exists when the run
    ends. *)
Theorem run_calls_name_existing_paths (self : Self) (w : World) (c : BusCall) :
  let out := run BeautifulSoup select_one soup_find http bus_reply netloc_accepted
               self w in
  c ∈ bus_log out.2 →
  c ∈ bus_log w
  ∨ ∃ name,
      call_value c = output_path self name
      ∧ cached self name out.2 = true
      ∧ call_interface c = appearance
      ∧ (call_key c = "background" ∨ call_key c = "greeterbackground").
Proof.
  cbn zeta. unfold run, bind.
  destruct (_fetch_wallpaper _ _ _ _ _ self w) as [[p|e] w1] eqn:Hf.
  - pose proof (bus_quiet_fetch_wallpaper self w _ _ Hf) as Hq.
    destruct (fetch_wallpaper_returns self w p w1 Hf) as (name & -> & Hc).
    destruct (set_wallpaper_log self (output_path self name) w1) as (l & Hl & Hcalls).
    rewrite Hl, Hq. intros [Hin|Hin]%elem_of_app; [by left|]. right.
    exists name.
    assert (cached self name
              (_set_wallpaper bus_reply self (output_path self name) w1).2 = true)
      as Hc'.
    { rewrite <- Hc. apply cached_only_bus.
      apply (only_bus_set_wallpaper self (output_path self name) w1
               (_set_wallpaper bus_reply self (output_path self name) w1).1).
      by destruct (_set_wallpaper _ _ _ _). }
    destruct (Hcalls c Hin) as [-> | ->]; cbn; repeat (split; [done|]); by auto.
  - pose proof (bus_quiet_fetch_wallpaper self w _ _ Hf) as Hq.
    cbn [snd]. rewrite Hq. by left.
Qed.

(** X5. When the fetch step fails, the run fails with the same exception
    and has made no call on the bus. *)
Theorem run_without_image_calls_nothing (self : Self) (w w1 : World) (e : Exception) :
  _fetch_wallpaper BeautifulSoup select_one soup_find http netloc_accepted self w
  = (Raise e, w1) →
  run BeautifulSoup select_one soup_find http bus_reply netloc_accepted self w
  = (Raise e, w1)
  ∧ bus_log w1 = bus_log w.
Proof.
  intros Hf. split.
  - unfold run, bind. by rewrite Hf.
  - apply (bus_quiet_fetch_wallpaper self w _ _ Hf).
Qed.

(** X6. The run changes and removes no file and no directory: whatever
    it does and however it ends, every regular file is afterwards where it
    was, with its content and its time, and every directory is still a
    directory. *)
Theorem run_loses_nothing (self : Self) (w : World) :
  let w' := (run BeautifulSoup select_one soup_find http bus_reply netloc_accepted
               self w).2 in
  (∀ k c m, fs w !! k = Some (File c m) → fs w' !! k = Some (File c m))
  ∧ (∀ k, is_dir (fs w) k = true → is_dir (fs w') k = true).
Proof.
  cbn zeta.
  destruct (run _ _ _ _ _ _ self w) as [r w'] eqn:Hrun.
  apply nothing_lost_run in Hrun as (HF & HD & _). by split.
Qed.

(** *** Construction *)

(** X7. Construction makes directories and nothing else: it creates,
    changes and removes no regular file, and every directory stays one.
    When the storage path is a directory already, it changes nothing at
    all. *)
Theorem init_adds_directories_only (source change : string) (clean : Z)
    (sp : string) (w : World) :
  let out := __init__ source change clean sp w in
  (∀ k c m, fs out.2 !! k = Some (File c m) ↔ fs w !! k = Some (File c m))
  ∧ (∀ k, is_dir (fs w) k = true → is_dir (fs out.2) k = true)
  ∧ (path_is_dir (fs w) (cwd w) (Path sp) = true →
     out = (Ok (mkSelf source change clean sp), w)).
Proof.
  cbn zeta. rewrite init_eq. split; [|split].
  - destruct (mkdir_p _ _ _ _) as [[[]|e] f] eqn:E;
      by apply mkdir_parents_extends in E as [HF HD].
  - destruct (mkdir_p _ _ _ _) as [[[]|e] f] eqn:E;
      by apply mkdir_parents_extends in E as [HF HD].
  - intros Hd. unfold mkdir_p. rewrite mkdir_parents_present.
    + by rewrite set_fs_same.
    + rewrite rev_involutive. by destruct (Path sp).
Qed.

(** X8. A regular file in the way makes construction fail, and nothing is
    changed: FileExistsError when the storage path names a regular file,
    NotADirectoryError when a regular file lies on the way to it. *)
Theorem init_blocked_by_a_file (source change : string) (clean : Z)
    (sp : string) (w : World) :
  (∀ k c m,
     path_resolve (fs w) (cwd w) (Path sp) = Ok k →
     fs w !! k = Some (File c m) →
     __init__ source change clean sp w = (Raise FileExistsError, w))
  ∧ (path_resolve (fs w) (cwd w) (Path sp) = Raise NotADirectoryError →
     __init__ source change clean sp w = (Raise NotADirectoryError, w)).
Proof.
  split.
  - intros k c m Hres Hk. rewrite init_eq. unfold mkdir_p.
    rewrite (mkdir_parents_on_file _ _ _ _ _ k c m).
    + by rewrite set_fs_same.
    + rewrite rev_involutive. by destruct (Path sp).
    + done.
  - intros Hres. rewrite init_eq. unfold mkdir_p.
    rewrite mkdir_parents_through_file.
    + by rewrite set_fs_same.
    + rewrite rev_involutive. by destruct (Path sp).
Qed.

(** *** Cleaning up, once more *)




(** *** The download step, once more *)



(** X11. With the empty file name the computed path is the storage
    directory itself; as the directory exists, the step takes it for the
    image: it returns the path at once, without a request. *)
Theorem download_image_empty_name (self : Self) (uri : string) (w : World) :
  path_is_dir (fs w) (cwd w) (Path (_storage_path self)) = true →
  Path (output_path self "") = Path (_storage_path self)
  ∧ _download_image http self uri "" w = (Ok (output_path self ""), w).
Proof.
  intros Hd. split; [apply Path_join_empty|].
  apply download_image_hit. unfold cached, path_exists, output_path.
  rewrite Path_join_empty. unfold path_is_dir in Hd.
  destruct (path_resolve _ _ _) as [k|]; [|discriminate].
  apply is_dir_Some in Hd as [m ->]. by apply bool_decide_eq_true.
Qed.



(** *** The session *)




(** X15. The session keeps the file system well-formed: when every node
    lies in a directory at the start, the same holds at the end, however
    the session ends. *)
Theorem session_keeps_well_formed (source change : string) (clean : Z)
    (sp : string) (w : World) :
  wf_fs (fs w) →
  wf_fs (fs (session BeautifulSoup select_one soup_find http bus_reply
               netloc_accepted source change clean sp w).2).
Proof.
  intros Hwf.
  destruct (session _ _ _ _ _ _ source change clean sp w) as [r w'] eqn:Hrun.
  exact (session_keeps_wf source change clean sp w r w' Hrun Hwf).
Qed.

(** *** The apply step, once more *)

(** X16. The apply step uses the bus and nothing else: it sends no
    request and leaves the file system as it is; and with a selector that
    is none of the three choices it makes no call either and returns. *)
Theorem set_wallpaper_uses_the_bus_only (self : Self) (path : string) (w : World) :
  let out := _set_wallpaper bus_reply self path w in
  fs out.2 = fs w
  ∧ requests_log out.2 = requests_log w
  ∧ (_change self ∉ change_choices → out = (Ok (), w)).
Proof using bus_reply.
  cbn zeta.
  destruct (_set_wallpaper bus_reply self path w) as [r w'] eqn:Hrun.
  pose proof (only_bus_set_wallpaper self path w r w' Hrun) as (Hf & _ & _ & Hl).
  split; [done|]. split; [done|].
  intros Hc. rewrite <- Hrun. unfold _set_wallpaper, bind, change_choices in *.
  repeat (match goal with
          | |- context [String.eqb (_change self) ?x] =>
              destruct (String.eqb_spec (_change self) x) as [E|_];
                [contradict Hc; rewrite E; repeat constructor|]
          end).
  reflexivity.
Qed.

(** *** The requests of an adapter *)

#[local] Instance one_request_at_most_refl : Reflexive one_request_at_most.
Proof. intros w. by left. Qed.

(** A step that leaves the world as it is, before one that may send a
    request. *)
Lemma preserves_after_pure {A B} (R : relation World) `{!Reflexive R}
    (m : M A) (k : A → M B) :
  preserves eq m → (∀ a, preserves R (k a)) → preserves R (bind m k).
Proof.
  intros Hm Hk w r w'. unfold bind.
  destruct (m w) as [[a|e] w1] eqn:E.
  - rewrite <- (Hm w _ _ E). apply Hk.
  - intros [= _ <-]. by rewrite <- (Hm w _ _ E).
Qed.

Lemma one_request_download_image self uri name :
  preserves one_request_at_most (_download_image http self uri name).
Proof.
  intros w r w' Hrun.
  destruct (download_image_cases self uri name w)
    as [[_ H]|[[_ [e H]]|[_ (x & k & _ & _ & _ & Hk & _ & _ & H)]]];
    rewrite H in Hrun; injection Hrun as _ <-; [by left|right..]; by exists uri.
Qed.

Lemma one_request_raise {A} (e : Exception) :
  preserves one_request_at_most (@raise A e).
Proof. intros w r w' [= _ <-]. by left. Qed.

(** What follows the fetch of the page, in every adapter. *)
Ltac after_the_page :=
  repeat first
    [ apply one_request_download_image
    | apply one_request_raise
    | apply preserves_after_pure;
        [apply _
        |first [apply preserves_lift | apply preserves_create_filename
               | apply preserves_raise
               | match goal with
                 | |- preserves _ (match ?x with _ => _ end) =>
                     destruct x; first [apply preserves_lift | apply preserves_raise]
                 end]; apply _
        |intros ?]
    | match goal with
      | |- preserves _ (match ?x with _ => _ end) => destruct x
      end ].

Lemma adapter_requests {A} (page : string) (tail : Soup → M A) w :
  (∀ soup, preserves one_request_at_most (tail soup)) →
  let w' := ((let* soup := _soupify BeautifulSoup http page in tail soup) w).2 in
  requests_log w' = requests_log w ++ [page]
  ∨ ∃ uri, requests_log w' = requests_log w ++ [page; uri].
Proof.
  intros Ht. cbn zeta. unfold bind. rewrite soupify_eq.
  destruct (http _ page) as [r|e]; [destruct (status_code r =? 200)|];
    [|by left..].
  destruct (tail _ _) as [x w'] eqn:Hrun. apply Ht in Hrun as [Hl|[uri Hl]];
    cbn [snd]; rewrite Hl; cbn [requests_log requested]; [by left|right].
  exists uri. by rewrite <- app_assoc.
Qed.

(** X17. An adapter sends one request or two: the first is for the page
    of its source, and a second one, if there is one, is the last thing
    it sends. *)
Theorem adapter_sends_at_most_two_requests (self : Self) (s page : string)
    (w : World) :
  (s, page) ∈ source_pages →
  let w' := (fetch_method BeautifulSoup select_one soup_find http netloc_accepted
               self s w).2 in
  requests_log w' = requests_log w ++ [page]
  ∨ ∃ uri, requests_log w' = requests_log w ++ [page; uri].
Proof.
  unfold source_pages. intros Hs.
  repeat (apply elem_of_cons in Hs as [[= -> ->]|Hs]);
    [..|by apply elem_of_nil in Hs];
    unfold fetch_method; cbn [String.eqb Ascii.eqb Bool.eqb];
    apply adapter_requests; intros soup; unfold image_not_found; after_the_page.
Qed.

(** X18. When the page of the source cannot be had, the adapter stops
    there: a failed transfer passes its exception on, a status other than
    200 gives the RuntimeError that carries the status; one request has
    been sent and nothing else has happened. *)
Theorem adapter_page_failure (self : Self) (s page : string) (w : World) :
  (s, page) ∈ source_pages →
  let out := fetch_method BeautifulSoup select_one soup_find http netloc_accepted
               self s w in
  (∀ e, http (length (requests_log w)) page = Raise e →
     out = (Raise e, requested page w))
  ∧ (∀ r, http (length (requests_log w)) page = Ok r → status_code r ≠ 200 →
       out = (Raise (RuntimeError (pretty (status_code r) +:+ " error fetching IoD")),
              requested page w)).
Proof.
  unfold source_pages. intros Hs.
  repeat (apply elem_of_cons in Hs as [[= -> ->]|Hs]);
    [..|by apply elem_of_nil in Hs];
    unfold fetch_method; cbn [String.eqb Ascii.eqb Bool.eqb];
    unfold _fetch_bing_wallpaper, _fetch_natgeo_wallpaper, _fetch_wiki_wallpaper,
      _fetch_nasa_wallpaper, _fetch_epod_wallpaper;
    (split; [intros e He | intros r Hr Hst; apply Z.eqb_neq in Hst];
     unfold bind at 1; rewrite soupify_eq;
     [by rewrite He | by rewrite Hr, Hst]).
Qed.

(** *** The addresses and the names of the adapters *)



(** X21. The nasa adapter downloads the address of the page with the
    reference of the link put behind it; with a reference of plain path
    characters the file is named by the last segment of the reference. *)
Theorem nasa_reference (self : Self) (w : World) (doc : Soup) (image : Tag)
    (href : string) :
  fetched BeautifulSoup http nasa_page w doc →
  select_one doc nasa_selector = Some image →
  getitem image "href" = Ok href →
  all_chars path_char href = true →
  _fetch_nasa_wallpaper BeautifulSoup select_one http netloc_accepted self w
  = _download_image http self ("https://apod.nasa.gov/apod/" +:+ href)
      (basename href) (requested nasa_page w).
Proof.
  intros Hdoc Hsel Hhref Hchars.
  destruct (fetch_nasa_spec self w doc Hdoc) as [_ Hfound].
  rewrite (Hfound image href Hsel Hhref). f_equal.
  change ("https://apod.nasa.gov/apod/" +:+ href)
    with ("https" +:+ "://" +:+ "apod.nasa.gov" +:+ "/" +:+ ("apod/" +:+ href)).
  by rewrite url_path_host.
Qed.

(** X22. The epod adapter downloads the address of the link as it is.
    The name is made from the address with ".jpg" put behind it: for an
    address of plain path characters that is the last segment with
    ".jpg"; for an address with a query the ending lands in the query,
    and the name is that of the address itself. *)
Theorem epod_file_name (self : Self) (w : World) (doc : Soup) (image : Tag) :
  fetched BeautifulSoup http epod_page w doc →
  select_one doc "a.asset-img-link" = Some image →
  (∀ s h X,
     getitem image "href" = Ok (s +:+ "://" +:+ h +:+ "/" +:+ X) →
     first_is is_ascii_alpha s = true → all_chars is_scheme_char s = true →
     all_chars host_char h = true → plain_netloc h = true →
     all_chars path_char X = true →
     _fetch_epod_wallpaper BeautifulSoup select_one http netloc_accepted self w
     = _download_image http self (s +:+ "://" +:+ h +:+ "/" +:+ X)
         (basename X +:+ ".jpg") (requested epod_page w))
  ∧ (∀ u t name,
       getitem image "href" = Ok (u +:+ String "?" t) →
       has_char "?" u = false → has_char "#" u = false →
       (_create_filename netloc_accepted u (requested epod_page w)).1 = Ok name →
       _fetch_epod_wallpaper BeautifulSoup select_one http netloc_accepted self w
       = _download_image http self (u +:+ String "?" t) name
           (requested epod_page w)).
Proof.
  intros Hdoc Hsel. destruct (fetch_epod_spec self w doc Hdoc) as [_ Hfound].
  split.
  - intros s h X Hhref H1 H2 H3 H4 HX.
    apply (Hfound image _ _ Hsel Hhref).
    rewrite !sapp_assoc, create_filename_host by done. cbn [fst]. f_equal.
    rewrite url_path_host; try done.
    + change ("/" +:+ X +:+ ".jpg") with ("" +:+ String "/" (X +:+ ".jpg")).
      rewrite basename_app_slash. by apply basename_app_plain.
    + by rewrite all_chars_app, HX.
  - intros u t name Hhref Hq Hf Hname.
    apply (Hfound image _ _ Hsel Hhref).
    rewrite sapp_assoc, sapp_cons.
    rewrite <- Hname, !create_filename_eq. unfold urlparse_path. cbn [fst].
    rewrite url_path_tail by done.
    by destruct (urlsplit_parts_tail u "?" (t +:+ ".jpg") Hq Hf eq_refl)
      as (_ & -> & _).
Qed.

Lemma getitem_missing (t : Tag) (key : string) :
  is_ok (getitem t key) = false → getitem t key = Raise (KeyError key).
Proof. unfold getitem. by destruct (List.find _ _). Qed.

(** X23. An element without the attribute that the adapter reads ends the
    adapter with the KeyError for that attribute, and a page of natgeo
    without a canonical link ends it with a TypeError; each time the
    request for the page is all that has happened. *)
Theorem adapter_missing_attribute (self : Self) (w : World) (doc : Soup)
    (image : Tag) :
  (fetched BeautifulSoup http natgeo_page w doc →
   soup_find doc "meta" ("property", "og:image") = Some image →
   (is_ok (getitem image "content") = false →
    _fetch_natgeo_wallpaper BeautifulSoup soup_find http netloc_accepted self w
    = (Raise (KeyError "content"), requested natgeo_page w))
   ∧ (is_ok (getitem image "content") = true →
      soup_find doc "link" ("rel", "canonical") = None →
      _fetch_natgeo_wallpaper BeautifulSoup soup_find http netloc_accepted self w
      = (Raise (TypeError "'NoneType' object is not subscriptable"),
         requested natgeo_page w))
   ∧ (∀ link,
        is_ok (getitem image "content") = true →
        soup_find doc "link" ("rel", "canonical") = Some link →
        is_ok (getitem link "href") = false →
        _fetch_natgeo_wallpaper BeautifulSoup soup_find http netloc_accepted self w
        = (Raise (KeyError "href"), requested natgeo_page w)))
  ∧ (fetched BeautifulSoup http wiki_page w doc →
     select_one doc "#mainpage-potd div a img" = Some image →
     is_ok (getitem image "src") = false →
     _fetch_wiki_wallpaper BeautifulSoup select_one http netloc_accepted self w
     = (Raise (KeyError "src"), requested wiki_page w))
  ∧ (fetched BeautifulSoup http nasa_page w doc →
     select_one doc nasa_selector = Some image →
     is_ok (getitem image "href") = false →
     _fetch_nasa_wallpaper BeautifulSoup select_one http netloc_accepted self w
     = (Raise (KeyError "href"), requested nasa_page w))
  ∧ (fetched BeautifulSoup http epod_page w doc →
     select_one doc "a.asset-img-link" = Some image →
     is_ok (getitem image "href") = false →
     _fetch_epod_wallpaper BeautifulSoup select_one http netloc_accepted self w
     = (Raise (KeyError "href"), requested epod_page w)).
Proof.
  split; [|split; [|split]].
  - intros Hdoc Hsel. split; [|split].
    + intros Hc%getitem_missing. adapter_start Hdoc. rewrite Hsel.
      unfold bind, lift. by rewrite Hc.
    + intros Hc Hl. adapter_start Hdoc. rewrite Hsel, Hl.
      unfold bind, lift, raise. by destruct (getitem image "content").
    + intros link Hc Hl Hh%getitem_missing. adapter_start Hdoc. rewrite Hsel, Hl.
      unfold bind, lift. destruct (getitem image "content"); [|done].
      by rewrite Hh.
  - intros Hdoc Hsel Hc%getitem_missing. adapter_start Hdoc. rewrite Hsel.
    unfold bind, lift. by rewrite Hc.
  - intros Hdoc Hsel Hc%getitem_missing. adapter_start Hdoc. rewrite Hsel.
    unfold bind, lift. by rewrite Hc.
  - intros Hdoc Hsel Hc%getitem_missing. adapter_start Hdoc. rewrite Hsel.
    unfold bind, lift. by rewrite Hc.
Qed.

(** *** Fetching again *)

Lemma one_download_here self uri name :
  one_download http self (_download_image http self uri name).
Proof. intros w p w1 _. by exists uri, name. Qed.

Lemma one_download_raise self e : one_download http self (raise e).
Proof. intros w p w1. discriminate. Qed.

Lemma one_download_lift {A} self (x : Result A) (k : A → M string) :
  (∀ a, one_download http self (k a)) → one_download http self (bind (lift x) k).
Proof.
  intros Hk w p w1. unfold bind, lift. destruct x as [a|e]; [|discriminate].
  apply Hk.
Qed.

Lemma one_download_create_filename self u (k : string → M string) :
  (∀ a, one_download http self (k a)) →
  one_download http self (bind (_create_filename netloc_accepted u) k).
Proof.
  intros Hk w p w1. unfold bind. rewrite create_filename_eq.
  destruct (urlparse_path netloc_accepted u) as [a|e] eqn:E; [|discriminate].
  intros (uri & name & H)%Hk. exists uri, name. intros w'.
  by rewrite create_filename_eq, E.
Qed.

Lemma one_download_after_raise {A} self e (k : A → M string) :
  one_download http self (bind (raise e) k).
Proof. intros w p w1. discriminate. Qed.

(** What follows the fetch of the page is one download, in every
    adapter. *)
Ltac one_download :=
  repeat first
    [ apply one_download_here
    | apply one_download_raise
    | apply one_download_after_raise
    | apply one_download_lift; intros ?
    | apply one_download_create_filename; intros ?
    | match goal with
      | |- one_download _ _ (bind (match ?x with _ => _ end) _) => destruct x
      | |- one_download _ _ (match ?x with _ => _ end) => destruct x
      end ].

Lemma fetch_again {page : string} {tail : Soup → M string} self w p w1 r r' :
  (∀ soup, one_download http self (tail soup)) →
  (let* soup := _soupify BeautifulSoup http page in tail soup) w = (Ok p, w1) →
  http (length (requests_log w)) page = Ok r →
  http (length (requests_log w1)) page = Ok r' →
  status_code r' = 200 → content r' = content r →
  (let* soup := _soupify BeautifulSoup http page in tail soup) w1
  = (Ok p, requested page w1).
Proof.
  intros Ht Hrun Hr Hr' Hs Hc. unfold bind in *. rewrite soupify_eq in *.
  rewrite Hr in Hrun. rewrite Hr', Hs, Hc. cbn [Z.eqb Pos.eqb].
  destruct (status_code r =? 200); [|discriminate].
  destruct (Ht _ _ _ _ Hrun) as (uri & name & Hd).
  rewrite Hd in Hrun. rewrite Hd.
  apply download_image_returns in Hrun as [-> Hcached].
  by apply download_image_hit.
Qed.

(** X24. Fetching again finds the image where the first fetch has left
    it: when an adapter has returned a path and is run once more, and the
    page of the source is served once more with the same body, then the
    second run returns the same path; the request for the page is all it
    sends, and it changes nothing. *)
Theorem second_fetch_hits_the_cache (self : Self) (s page : string)
    (w w1 : World) (p : string) (r r' : Response) :
  (s, page) ∈ source_pages →
  fetch_method BeautifulSoup select_one soup_find http netloc_accepted self s w
  = (Ok p, w1) →
  http (length (requests_log w)) page = Ok r →
  http (length (requests_log w1)) page = Ok r' →
  status_code r' = 200 → content r' = content r →
  fetch_method BeautifulSoup select_one soup_find http netloc_accepted self s w1
  = (Ok p, requested page w1).
Proof.
  unfold source_pages. intros Hs.
  repeat (apply elem_of_cons in Hs as [[= -> ->]|Hs]);
    [..|by apply elem_of_nil in Hs];
    unfold fetch_method; cbn [String.eqb Ascii.eqb Bool.eqb];
    intros Hrun Hr Hr' Hst Hc;
    apply (fetch_again self w p w1 r r'); try done;
    intros soup; unfold image_not_found; one_download.
Qed.


End Facts.

End DdwFacts.

(* ===================================================================== *)
(** ** The program on the sample world *)
(* ===================================================================== *)

Module Checks.
Import PyStr UrlLib Registry Fs Ddw Sample PyStrFacts UrlFacts FsFacts DdwFacts.

Lemma files_wf : wf_fs files.
Proof. apply wf_fsb_sound. vm_compute. reflexivity. Qed.




(** Golden files: the URL and the file name for two texts of [urlBase],
    an archive address and an address with a query. *)
Example bing_archive_name :
  basename (url_path "https://www.bing.com//az/hprichbg/rb/Dunes_EN-US123.jpg")
  = "Dunes_EN-US123.jpg".
Proof. reflexivity. Qed.

Example bing_query_name :
  basename (url_path "https://www.bing.com//th?id=OHR.Dunes_EN-US123.jpg") = "th".
Proof. reflexivity. Qed.

Example wiki_full_resolution :
  let full := replace "thumb/" ""
    "https://upload.wikimedia.org/wikipedia/commons/thumb/a/ab/Dunes.jpg/640px-Dunes.jpg" in
  slice_to full (rfind "/" full)
  = "https://upload.wikimedia.org/wikipedia/commons/a/ab/Dunes.jpg".
Proof. reflexivity. Qed.

(** The whole run on the sample world: one page, one image, two calls. *)
Example run_sample :
  let out := run parse select find_tag server bus_accepts accept_none self world in
  out.1 = Ok ()
  ∧ requests_log out.2
    = [bing_page;
       "https://www.bing.com//az/hprichbg/rb/Dunes_EN-US123_1920x1080.jpg"]
  ∧ fs out.2 !! (storage ++ ["Dunes_EN-US123.jpg"]) = Some (File "JFIF" (11 * day))
  ∧ bus_log out.2
    = [mkCall "background" "/home/u/wallpapers/Dunes_EN-US123.jpg" appearance;
       mkCall "greeterbackground" "/home/u/wallpapers/Dunes_EN-US123.jpg" appearance].
Proof. vm_compute. repeat split. Qed.

(** C1, on a cached file and on a fresh one. *)
Lemma download_image_idempotent_witness :
  _download_image server self "https://example.org/a.jpg" "old.jpg" world
  = (Ok "/home/u/wallpapers/old.jpg", world)
  ∧ (let first := _download_image server self "https://www.bing.com/new.jpg" "new.jpg" world in
     first.1 = Ok "/home/u/wallpapers/new.jpg"
     ∧ requests_log first.2 = ["https://www.bing.com/new.jpg"]
     ∧ _download_image server self "https://www.bing.com/new.jpg" "new.jpg" first.2
       = (Ok "/home/u/wallpapers/new.jpg", first.2)).
Proof.
  split.
  - apply (proj1 (download_image_idempotent server self
                    "https://example.org/a.jpg" "old.jpg" world)).
    vm_compute. reflexivity.
  - cbv zeta. split; [vm_compute; reflexivity|]. split; [vm_compute; reflexivity|].
    apply (proj2 (download_image_idempotent server self
                    "https://www.bing.com/new.jpg" "new.jpg" world)
             "/home/u/wallpapers/new.jpg"
             (_download_image server self "https://www.bing.com/new.jpg" "new.jpg" world).2).
    vm_compute. reflexivity.
Defined.

(** C4, on an address the sample server does not know. *)
Lemma download_image_bad_status_witness :
  let out := _download_image server self "https://example.org/a.jpg" "new.jpg" world in
  out.1 = Raise (RuntimeError (pretty 404 +:+ " error downloading image"))
  ∧ fs out.2 = fs world
  ∧ cached self "new.jpg" out.2 = false
  ∧ out.2 = requested "https://example.org/a.jpg" world.
Proof.
  apply (download_image_bad_status server self "https://example.org/a.jpg"
           "new.jpg" world (mkResponse 404 "")).
  - vm_compute. reflexivity.
  - reflexivity.
  - discriminate.
Defined.

Example bad_status_message :
  RuntimeError (pretty 404 +:+ " error downloading image")
  = RuntimeError "404 error downloading image".
Proof. vm_compute. reflexivity. Qed.

(** C5, with selector "all" on a service that accepts every call. *)
Lemma set_wallpaper_calls_witness :
  bus_log (_set_wallpaper bus_accepts self "/home/u/wallpapers/old.jpg" world).2
  = [mkCall "background" "/home/u/wallpapers/old.jpg" appearance;
     mkCall "greeterbackground" "/home/u/wallpapers/old.jpg" appearance].
Proof.
  exact (proj1 (proj2 (proj2
           (set_wallpaper_calls bus_accepts self "/home/u/wallpapers/old.jpg" world)))
           eq_refl eq_refl).
Defined.

(** C7, on the page of bing. *)
Lemma soupify_one_get_witness :
  (_soupify parse server bing_page world).1 = Ok (parse "bing-xml")
  ∧ (_soupify parse server bing_page world).2 = requested bing_page world.
Proof.
  pose proof (soupify_one_get Doc parse server bing_page world
                (mkResponse 200 "bing-xml") eq_refl) as (H1 & _ & _ & H2).
  split; [exact (H2 eq_refl) | exact H1].
Defined.

(** C6: construction makes four directories; a download adds one file to
    the storage directory. *)
Lemma storage_directory_invariant_witness :
  (∃ self' w',
     __init__ "any" "all" 7 "/home/u/.local/share/ddw/wallpapers" world = (Ok self', w')
     ∧ made (fs world) (fs w') ["home"; "u"; ".local"; "share"; "ddw"; "wallpapers"])
  ∧ (let out := _download_image server self "https://www.bing.com/new.jpg" "Dunes.jpg" world in
     fs out.2 = fs world
     ∨ ∃ d data,
         path_resolve (fs world) (cwd world) (Path (_storage_path self)) = Ok d
         ∧ is_dir (fs world) d = true
         ∧ fs world !! (d ++ ["Dunes.jpg"]) = None
         ∧ fs out.2 = touch (clock world) d
                        (<[d ++ ["Dunes.jpg"] := File data (clock world)]> (fs world))).
Proof.
  destruct (storage_directory_invariant server accept_none) as (_ & Hinit & Hwrite).
  split.
  - apply (Hinit "any" "all" 7 "/home/u/.local/share/ddw/wallpapers" world).
    + vm_compute. repeat (constructor; [discriminate|]). constructor.
    + reflexivity.
    + apply no_file_onb_sound. vm_compute. reflexivity.
  - apply (Hwrite self "https://www.bing.com/new.jpg"
             "https://www.bing.com/az/Dunes.jpg" "Dunes.jpg" world world
             (_download_image server self "https://www.bing.com/new.jpg" "Dunes.jpg" world).1).
    + exact files_wf.
    + vm_compute. reflexivity.
    + by destruct (_download_image _ _ _ _ _).
Defined.







(** Nine days later, with nothing touched in between, the sweep removes
    both files and then the storage directory itself. *)
Example clean_up_can_remove_the_directory :
  is_dir (fs later) storage = true
  ∧ fs (clean_up self later).2 !! storage = None.
Proof. vm_compute. split; reflexivity. Qed.

(** *** The further properties on the sample world *)

(** X2, for the user of the sample world, whose source is bing. *)
Lemma fetch_wallpaper_runs_an_adapter_witness :
  ∃ s m,
    s ∈ get_sources
    ∧ (s, m) ∈ adapters parse select find_tag server accept_none self
    ∧ (_source self ≠ "any" → s = _source self)
    ∧ _fetch_wallpaper parse select find_tag server accept_none self world = m world.
Proof.
  apply (fetch_wallpaper_runs_an_adapter Doc parse select find_tag server
           accept_none self world).
  apply (bool_decide_unpack _). vm_compute. exact I.
Defined.

(** X3, for a source that has no adapter. *)
Lemma fetch_wallpaper_unknown_source_witness :
  _fetch_wallpaper parse select find_tag server accept_none flickr_user world
  = (Raise (AttributeError "_fetch_flickr_wallpaper"), world).
Proof.
  apply (fetch_wallpaper_unknown_source Doc parse select find_tag server
           accept_none flickr_user world).
  apply (bool_decide_unpack _). vm_compute. exact I.
Defined.

(** X4, on the second call of the sample run. *)
Lemma run_calls_name_existing_paths_witness :
  let c := mkCall "greeterbackground" "/home/u/wallpapers/Dunes_EN-US123.jpg"
             appearance in
  c ∈ bus_log world
  ∨ ∃ name,
      call_value c = output_path self name
      ∧ cached self name
          (run parse select find_tag server bus_accepts accept_none self world).2
        = true
      ∧ call_interface c = appearance
      ∧ (call_key c = "background" ∨ call_key c = "greeterbackground").
Proof.
  apply (run_calls_name_existing_paths Doc parse select find_tag server
           bus_accepts accept_none self world).
  vm_compute. do 2 constructor.
Defined.

(** X5: the sample page of wiki has no image. *)
Lemma run_without_image_calls_nothing_witness :
  run parse select find_tag server bus_accepts accept_none wiki_user world
  = (Raise (RuntimeError "Image not found"), requested wiki_page world)
  ∧ bus_log (requested wiki_page world) = bus_log world.
Proof.
  apply (run_without_image_calls_nothing Doc parse select find_tag server
           bus_accepts accept_none wiki_user world).
  vm_compute. reflexivity.
Defined.


(** X11, with the name of an address that ends in a slash. *)
Lemma download_image_empty_name_witness :
  Path (output_path self "") = Path "/home/u/wallpapers"
  ∧ _download_image server self "https://apod.nasa.gov/apod/image/" "" world
    = (Ok "/home/u/wallpapers/", world).
Proof.
  apply (download_image_empty_name server self
           "https://apod.nasa.gov/apod/image/" world).
  vm_compute. reflexivity.
Defined.




(** X15, on the sample world. *)
Lemma session_keeps_well_formed_witness :
  wf_fs (fs (session parse select find_tag server bus_accepts accept_none
               "bing" "all" 7 "/home/u/wallpapers" world).2).
Proof.
  apply (session_keeps_well_formed Doc parse select find_tag server bus_accepts
           accept_none "bing" "all" 7 "/home/u/wallpapers" world).
  apply wf_fsb_sound. vm_compute. reflexivity.
Defined.

(** X17, for the adapter of bing. *)
Lemma adapter_sends_at_most_two_requests_witness :
  let w' := (fetch_method parse select find_tag server accept_none self
               "bing" world).2 in
  requests_log w' = requests_log world ++ [bing_page]
  ∨ ∃ uri, requests_log w' = requests_log world ++ [bing_page; uri].
Proof.
  apply (adapter_sends_at_most_two_requests Doc parse select find_tag server
           accept_none self "bing" bing_page world).
  apply (bool_decide_unpack _). vm_compute. exact I.
Defined.

(** X18: the sample server has no page for nasa. *)
Lemma adapter_page_failure_witness :
  fetch_method parse select find_tag server accept_none self "nasa" world
  = (Raise (RuntimeError (pretty 404 +:+ " error fetching IoD")),
     requested nasa_page world).
Proof.
  refine (proj2 (adapter_page_failure Doc parse select find_tag server
                   accept_none self "nasa" nasa_page world _)
            (mkResponse 404 "") eq_refl _).
  - apply (bool_decide_unpack _). vm_compute. exact I.
  - discriminate.
Defined.



(** X21, on a link to an image of the day. *)
Lemma nasa_reference_witness :
  _fetch_nasa_wallpaper parse (always nasa_image) serves_all accept_none self world
  = _download_image serves_all self
      "https://apod.nasa.gov/apod/image/2401/dunes.jpg" "dunes.jpg"
      (requested nasa_page world).
Proof.
  apply (nasa_reference Doc parse (always nasa_image) serves_all accept_none
           self world (parse "page") nasa_image "image/2401/dunes.jpg").
  - exists (mkResponse 200 "page"). repeat split.
  - reflexivity.
  - reflexivity.
  - vm_compute. reflexivity.
Defined.

(** X22, on a link without an ending. *)
Lemma epod_file_name_witness :
  _fetch_epod_wallpaper parse (always epod_image) serves_all accept_none self world
  = _download_image serves_all self "https://epod.usra.edu/images/dunes"
      "dunes.jpg" (requested epod_page world).
Proof.
  refine (proj1 (epod_file_name Doc parse (always epod_image) serves_all
                   accept_none self world (parse "page") epod_image _ eq_refl)
            "https" "epod.usra.edu" "images/dunes" eq_refl _ _ _ _ _);
    try (vm_compute; reflexivity).
  exists (mkResponse 200 "page"). repeat split.
Defined.

(** X7: the storage directory of the sample world is there already. *)
Lemma init_adds_directories_only_witness :
  __init__ "bing" "all" 7 "/home/u/wallpapers" world = (Ok self, world).
Proof.
  apply (init_adds_directories_only "bing" "all" 7 "/home/u/wallpapers" world).
  vm_compute. reflexivity.
Defined.

(** X8: a storage path that names an image, and one that leads through
    it. *)
Lemma init_blocked_by_a_file_witness :
  __init__ "bing" "all" 7 "/home/u/wallpapers/old.jpg" world
  = (Raise FileExistsError, world)
  ∧ __init__ "bing" "all" 7 "/home/u/wallpapers/old.jpg/new" world
    = (Raise NotADirectoryError, world).
Proof.
  split.
  - apply (proj1 (init_blocked_by_a_file "bing" "all" 7
                    "/home/u/wallpapers/old.jpg" world)
             (storage ++ ["old.jpg"]) "old" 0); vm_compute; reflexivity.
  - apply (proj2 (init_blocked_by_a_file "bing" "all" 7
                    "/home/u/wallpapers/old.jpg/new" world)).
    vm_compute. reflexivity.
Defined.


(** X16: a selector that is none of the three. *)
Lemma set_wallpaper_uses_the_bus_only_witness :
  _set_wallpaper bus_accepts (mkSelf "bing" "desktop" 7 "/home/u/wallpapers")
    "/home/u/wallpapers/old.jpg" world = (Ok (), world).
Proof.
  apply (set_wallpaper_uses_the_bus_only bus_accepts
           (mkSelf "bing" "desktop" 7 "/home/u/wallpapers")
           "/home/u/wallpapers/old.jpg" world).
  apply (bool_decide_unpack _). vm_compute. exact I.
Defined.

(** X23: a link of epod without an address. *)
Lemma adapter_missing_attribute_witness :
  _fetch_epod_wallpaper parse (always (mkTag "" [])) serves_all accept_none self world
  = (Raise (KeyError "href"), requested epod_page world).
Proof.
  apply (proj2 (proj2 (proj2
           (adapter_missing_attribute Doc parse (always (mkTag "" [])) find_tag
              serves_all accept_none self world (parse "page") (mkTag "" []))))).
  - exists (mkResponse 200 "page"). repeat split.
  - reflexivity.
  - reflexivity.
Defined.

(** X24: the sample run of bing, and the same run once more. *)
Lemma second_fetch_hits_the_cache_witness :
  let first := fetch_method parse select find_tag server accept_none self
                 "bing" world in
  fetch_method parse select find_tag server accept_none self "bing" first.2
  = (Ok "/home/u/wallpapers/Dunes_EN-US123.jpg", requested bing_page first.2).
Proof.
  apply (second_fetch_hits_the_cache Doc parse select find_tag server
           accept_none self "bing" bing_page world _
           "/home/u/wallpapers/Dunes_EN-US123.jpg"
           (mkResponse 200 "bing-xml") (mkResponse 200 "bing-xml")).
  - apply (bool_decide_unpack _). vm_compute. exact I.
  - vm_compute. reflexivity.
  - reflexivity.
  - reflexivity.
  - reflexivity.
  - reflexivity.
Defined.


End Checks.
